(** * The book resolvers of [src/index.ts]

    A shallow embedding of the resolver set of the GraphQL example server:
    the module-level array [books], the [Query] resolvers [getBooks],
    [getBooksCount] and [getBook], the field resolver [Book.author] and the
    [Mutation] resolvers [addBook], [updateBook] and [deleteBook].

    The array is threaded through every resolver as explicit state; a
    resolver either returns a value or throws.  The schema execution engine
    (Apollo) and the HTTP transport are outside the embedding. *)

From Stdlib Require Import ZArith String.
From stdpp Require Import base list strings.

(** ** JavaScript values *)

(** A value that may be missing.  GraphQL leaves an argument that the caller
    omitted out of [args], so reading it gives [undefined]; an argument passed
    as the literal null gives [null].  Reading a property that an object does
    not have gives [undefined] as well, so a record field of this type holds
    what the property read [o.f] evaluates to. *)
Inductive js (A : Type) : Type :=
  | undefined
  | null
  | val (a : A).
Arguments undefined {A}.
Arguments null {A}.
Arguments val {A} a.

(** What [v ? _ : _] and [if (v)] test. *)
Class Truthy (A : Type) := truthy : A → bool.

(** A string is falsy exactly when it is empty. *)
#[export] Instance string_truthy : Truthy string :=
  λ s, negb (String.eqb s "").

(** A number is falsy exactly when it is zero (a GraphQL [Int] is never NaN). *)
#[export] Instance Z_truthy : Truthy Z :=
  λ n, negb (Z.eqb n 0).

(** [undefined] and [null] are falsy. *)
#[export] Instance js_truthy {A} `{Truthy A} : Truthy (js A) :=
  λ v, match v with val a => truthy a | _ => false end.

(** [a === b] on two strings.  A string is the sequence of the bytes of its
    UTF-8 encoding; on well-formed text two such sequences are equal exactly
    when the UTF-16 code units that JavaScript compares are. *)
Definition strict_eq (a b : string) : bool := String.eqb a b.

(** [a === b] where [a] is a string and [b] may be [undefined] or [null]. *)
Definition strict_eq_js (a : string) (b : js string) : bool :=
  match b with
  | val s => strict_eq a s
  | _ => false
  end.

(** [supplied ? supplied : prior] where [prior] is a property that is always
    present. *)
Definition or_prior {A} `{Truthy A} (supplied : js A) (prior : A) : A :=
  match supplied with
  | val a => if truthy a then a else prior
  | _ => prior
  end.

(** [supplied ? supplied : prior] where [prior] may itself be missing. *)
Definition or_prior_js {A} `{Truthy A} (supplied prior : js A) : js A :=
  if truthy supplied then supplied else prior.

(** ** Arrays *)

Module JsArray.

(** [l.find(p)]: the first element satisfying [p], or [undefined]. *)
Fixpoint find {A} (p : A → bool) (l : list A) : js A :=
  match l with
  | [] => undefined
  | x :: l' => if p x then val x else find p l'
  end.

Fixpoint findIndex_from {A} (p : A → bool) (l : list A) (i : Z) : Z :=
  match l with
  | [] => (-1)%Z
  | x :: l' => if p x then i else findIndex_from p l' (i + 1)%Z
  end.

(** [l.findIndex(p)]: the index of the first element satisfying [p],
    or -1. *)
Definition findIndex {A} (p : A → bool) (l : list A) : Z :=
  findIndex_from p l 0.

(** [l[i]]: [undefined] outside the array. *)
Definition index {A} (l : list A) (i : Z) : js A :=
  if (i <? 0)%Z then undefined
  else match l !! Z.to_nat i with
       | Some x => val x
       | None => undefined
       end.

(** [l[i] = x] at an index inside the array.  Outside the array JavaScript
    would grow it; [updateBook] only assigns at the index it has just read
    an element from, see [findIndex_lookup]. *)
Definition assign {A} (l : list A) (i : Z) (x : A) : list A :=
  <[Z.to_nat i := x]> l.

(** [l.push(x)] *)
Definition push {A} (l : list A) (x : A) : list A := l ++ [x].

(** [l.length] *)
Definition length {A} (l : list A) : Z := Z.of_nat (List.length l).

(** [l.splice(start, deleteCount)]: the removed elements and the array
    that is left.  A negative [start] counts from the end, and both
    arguments are clamped to the array. *)
Definition splice {A} (start deleteCount : Z) (l : list A)
  : list A * list A :=
  let len := length l in
  let actualStart :=
    if (start <? 0)%Z then Z.max (len + start) 0 else Z.min start len in
  let actualDeleteCount :=
    Z.min (Z.max deleteCount 0) (len - actualStart) in
  (take (Z.to_nat actualDeleteCount) (drop (Z.to_nat actualStart) l),
   take (Z.to_nat actualStart) l
     ++ drop (Z.to_nat (actualStart + actualDeleteCount)) l).

End JsArray.

(** ** The schema's types *)

Inductive Genre : Type := NONE | FICTION | MYSTERY | FANTASY | ROMANCE.

(** An enum value is its name, a non-empty string. *)
#[export] Instance Genre_truthy : Truthy Genre := λ _, true.

Module Author.
Record t : Type := mk {
  name : string;
  nationality : js string
}.
End Author.

(** An element of the array.  [id], [title], [publisher], [genre] and
    [authorName] are present in both literal records and are non-null
    arguments of [addBook]; the other properties may be missing. *)
Module Book.
Record t : Type := mk {
  id : string;
  title : string;
  description : js string;
  isbn : js string;
  publisher : string;
  genre : Genre;
  publishYear : js Z;
  authorName : string;
  authorNationality : js string
}.
End Book.

(** An object is truthy. *)
#[export] Instance Book_truthy : Truthy Book.t := λ _, true.

(** The arguments of the [addBook] mutation. *)
Module AddBookArgs.
Record t : Type := mk {
  title : string;
  description : js string;
  isbn : js string;
  publisher : string;
  genre : Genre;
  publishYear : js Z;
  authorName : string;
  authorNationality : js string
}.
End AddBookArgs.

(** The arguments of the [updateBook] mutation: only [id] is non-null. *)
Module UpdateBookArgs.
Record t : Type := mk {
  id : string;
  title : js string;
  description : js string;
  isbn : js string;
  publisher : js string;
  genre : js Genre;
  publishYear : js Z;
  authorName : js string;
  authorNationality : js string
}.
End UpdateBookArgs.

(** ** Resolvers as state transformers *)

(** What a [throw] carries: the [GraphQLError] of [addBook], with its message
    and [extensions.code], or the engine's own [TypeError]. *)
Inductive Error : Type :=
  | GraphQLError (message : string) (code : string)
  | TypeError.

Inductive outcome (A : Type) : Type :=
  | Returned (a : A)
  | Thrown (e : Error).
Arguments Returned {A} a.
Arguments Thrown {A} e.

(** A resolver body runs against the current array and leaves the array
    behind, whether it returns or throws. *)
Definition Resolver (A : Type) : Type :=
  list Book.t → outcome A * list Book.t.

Definition ret {A} (a : A) : Resolver A := λ bs, (Returned a, bs).

Definition bind {A B} (m : Resolver A) (k : A → Resolver B) : Resolver B :=
  λ bs, match m bs with
        | (Returned a, bs') => k a bs'
        | (Thrown e, bs') => (Thrown e, bs')
        end.

Definition throw {A} (e : Error) : Resolver A := λ bs, (Thrown e, bs).

(** Reading and replacing the module-level array. *)
Definition get : Resolver (list Book.t) := λ bs, (Returned bs, bs).
Definition put (bs' : list Book.t) : Resolver unit := λ _, (Returned tt, bs').

Declare Scope resolver_scope.
Delimit Scope resolver_scope with resolver.
Notation "'let*' x := m 'in' k" := (bind m (λ x, k))
  (at level 10, x name, m at level 100, k at level 200) : resolver_scope.
Notation "m ;; k" := (bind m (λ _, k))
  (at level 100, k at level 200, right associativity) : resolver_scope.

(** The value and the array a resolver leaves. *)
Definition result {A} (r : outcome A * list Book.t) : outcome A := fst r.
Definition store {A} (r : outcome A * list Book.t) : list Book.t := snd r.

(** ** The data source *)

Definition the_awakening : Book.t :=
  {| Book.id := "d26fd654-f4d4-4b98-91e5-6d8c9569aed6";
     Book.title := "The Awakening";
     Book.description := val "The Awakening es una novela de la escritora estadounidense Kate Chopin.";
     Book.isbn := undefined;
     Book.publisher := "W W Norton & Co Inc";
     Book.genre := NONE;
     Book.publishYear := val 1899%Z;
     Book.authorName := "Kate Chopin";
     Book.authorNationality := undefined |}.

Definition city_of_glass : Book.t :=
  {| Book.id := "35b19ead-3aa9-415e-a46d-6621e1604119";
     Book.title := "City of Glass";
     Book.description := val "Ciudad de cristal es el tercer libro de la saga Cazadores de Sombras, escrita por Cassandra Clare. Fue publicada originalmente en Estados Unidos.";
     Book.isbn := val "978-0140097313";
     Book.publisher := "Simon & Schuster";
     Book.genre := FANTASY;
     Book.publishYear := val 2009%Z;
     Book.authorName := "Paul Auster";
     Book.authorNationality := val "Estadounidense" |}.

(** The array literal the module starts with. *)
Definition books : list Book.t := [the_awakening; city_of_glass].

(** ** Query *)

Section Resolvers.
Local Open Scope resolver_scope.

Definition getBooks : Resolver (list Book.t) :=
  let* bs := get in
  ret bs.

Definition getBooksCount : Resolver Z :=
  let* bs := get in
  ret (JsArray.length bs).

Definition getBook (id : js string) : Resolver (js Book.t) :=
  let* bs := get in
  ret (JsArray.find (λ book, strict_eq_js (Book.id book) id) bs).

(** ** Book *)

Definition author (root : Book.t) : Resolver Author.t :=
  ret {| Author.name := Book.authorName root;
         Author.nationality := Book.authorNationality root |}.

(** ** Mutation *)

(** The message and code of the error [addBook] throws. *)
Definition duplicate_title_error : Error :=
  GraphQLError "Título es una valor único" "BAD_USER_INPUT".

(** [uuid] is the string the call [uuid()] evaluates to; the call is made
    only on the path that builds [newBook]. *)
Definition addBook (uuid : string) (args : AddBookArgs.t)
  : Resolver Book.t :=
  let* bs := get in
  if truthy (JsArray.find
               (λ book, strict_eq (Book.title book) (AddBookArgs.title args))
               bs)
  then throw duplicate_title_error
  else
    let newBook :=
      {| Book.title := AddBookArgs.title args;
         Book.description := AddBookArgs.description args;
         Book.isbn := AddBookArgs.isbn args;
         Book.publisher := AddBookArgs.publisher args;
         Book.genre := AddBookArgs.genre args;
         Book.publishYear := AddBookArgs.publishYear args;
         Book.authorName := AddBookArgs.authorName args;
         Book.authorNationality := AddBookArgs.authorNationality args;
         Book.id := uuid |} in
    put (JsArray.push bs newBook) ;;
    ret newBook.

(** The object literal [{...book, title: ..., ...}] of [updateBook]. *)
Definition merge (book : Book.t) (args : UpdateBookArgs.t) : Book.t :=
  {| Book.id := Book.id book;
     Book.title := or_prior (UpdateBookArgs.title args) (Book.title book);
     Book.description :=
       or_prior_js (UpdateBookArgs.description args) (Book.description book);
     Book.isbn := or_prior_js (UpdateBookArgs.isbn args) (Book.isbn book);
     Book.publisher :=
       or_prior (UpdateBookArgs.publisher args) (Book.publisher book);
     Book.genre := or_prior (UpdateBookArgs.genre args) (Book.genre book);
     Book.publishYear :=
       or_prior_js (UpdateBookArgs.publishYear args) (Book.publishYear book);
     Book.authorName :=
       or_prior (UpdateBookArgs.authorName args) (Book.authorName book);
     Book.authorNationality :=
       or_prior_js (UpdateBookArgs.authorNationality args)
                   (Book.authorNationality book) |}.

(** Were [books[updatedBookIndex]] not an element, the property reads on
    it would raise a [TypeError]; [updateBook_never_throws] shows that this
    does not happen. *)
Definition updateBook (args : UpdateBookArgs.t) : Resolver (js Book.t) :=
  let* bs := get in
  let updatedBookIndex :=
    JsArray.findIndex
      (λ book, strict_eq (Book.id book) (UpdateBookArgs.id args)) bs in
  if (updatedBookIndex =? -1)%Z then ret null
  else
    match JsArray.index bs updatedBookIndex with
    | val book =>
        let updatedBook := merge book args in
        put (JsArray.assign bs updatedBookIndex updatedBook) ;;
        ret (val updatedBook)
    | _ => throw TypeError
    end.

Definition deleteBook (id : string) : Resolver (js Book.t) :=
  let* bs := get in
  let deletedBookIndex :=
    JsArray.findIndex (λ book, strict_eq (Book.id book) id) bs in
  if (deletedBookIndex =? -1)%Z then ret null
  else
    let '(removed, rest) := JsArray.splice deletedBookIndex 1 bs in
    put rest ;;
    let deletedBook := JsArray.index removed 0 in
    ret deletedBook.

End Resolvers.

(** ** Vocabulary of the properties *)

(** The identifiers in the array, in order. *)
Definition ids (bs : list Book.t) : list string := Book.id <$> bs.

(** The titles in the array, in order. *)
Definition titles (bs : list Book.t) : list string := Book.title <$> bs.

(** [x] is at position [i] and is the first element satisfying [p]. *)
Definition first_at {A} (p : A → bool) (l : list A) (i : nat) (x : A) : Prop :=
  l !! i = Some x ∧ p x = true ∧ ∀ j y, j < i → l !! j = Some y → p y = false.

(** [book] is the first record of the array whose identifier is [id], at
    position [i]. *)
Definition first_with_id (id : string) (bs : list Book.t)
    (i : nat) (book : Book.t) : Prop :=
  first_at (λ b, strict_eq (Book.id b) id) bs i book.

(** [new] is the value [supplied] when that is truthy, and [prior]
    otherwise. *)
Definition overwritten_iff_truthy {A} `{Truthy A}
    (supplied prior new : js A) : Prop :=
  (truthy supplied = true → new = supplied)
  ∧ (truthy supplied = false → new = prior).

(** [updateBook({id, title})]: every other argument is left out. *)
Definition only_title (id title : string) : UpdateBookArgs.t :=
  {| UpdateBookArgs.id := id;
     UpdateBookArgs.title := val title;
     UpdateBookArgs.description := undefined;
     UpdateBookArgs.isbn := undefined;
     UpdateBookArgs.publisher := undefined;
     UpdateBookArgs.genre := undefined;
     UpdateBookArgs.publishYear := undefined;
     UpdateBookArgs.authorName := undefined;
     UpdateBookArgs.authorNationality := undefined |}.

(** ** The states of the server *)

(** One request to a root resolver.  [AddBook] carries the identifier that
    [uuid()] produces while it is served. *)
Inductive request : Type :=
  | GetBooks
  | GetBooksCount
  | GetBook (id : js string)
  | AddBook (uuid : string) (args : AddBookArgs.t)
  | UpdateBook (args : UpdateBookArgs.t)
  | DeleteBook (id : string).

(** The array after serving a request. *)
Definition serve (r : request) (bs : list Book.t) : list Book.t :=
  match r with
  | GetBooks => store (getBooks bs)
  | GetBooksCount => store (getBooksCount bs)
  | GetBook id => store (getBook id bs)
  | AddBook uuid args => store (addBook uuid args bs)
  | UpdateBook args => store (updateBook args bs)
  | DeleteBook id => store (deleteBook id bs)
  end.

(** What the [uuid] package promises of the identifier it hands out, as far
    as the array is concerned: it is not the identifier of a record that is
    already there. *)
Definition uuid_contract (r : request) (bs : list Book.t) : Prop :=
  match r with
  | AddBook uuid _ => uuid ∉ ids bs
  | _ => True
  end.

(** The arrays the server can hold: the literal one, and what serving a
    request makes of an array it can hold. *)
Inductive reachable : list Book.t → Prop :=
  | reachable_init : reachable books
  | reachable_serve (r : request) (bs : list Book.t) :
      reachable bs → uuid_contract r bs → reachable (serve r bs).

(** ** Sample requests *)

(** An identifier of the shape [uuid()] produces. *)
Definition sample_uuid : string := "9b1deb4d-3b7d-4bad-9bdd-2b0d7b3dcb6d".

(** The arguments of an [addBook] request for a book of the given title that
    leaves the nullable arguments out. *)
Definition sample_args (title : string) : AddBookArgs.t :=
  {| AddBookArgs.title := title;
     AddBookArgs.description := undefined;
     AddBookArgs.isbn := undefined;
     AddBookArgs.publisher := "Harper & Brothers";
     AddBookArgs.genre := FICTION;
     AddBookArgs.publishYear := val 1851%Z;
     AddBookArgs.authorName := "Herman Melville";
     AddBookArgs.authorNationality := null |}.

(** An [updateBook] request on the first literal record in which every
    supplied value is falsy but the publisher. *)
Definition falsy_update : UpdateBookArgs.t :=
  {| UpdateBookArgs.id := Book.id the_awakening;
     UpdateBookArgs.title := val "";
     UpdateBookArgs.description := val "";
     UpdateBookArgs.isbn := null;
     UpdateBookArgs.publisher := val "Herbert S. Stone & Co";
     UpdateBookArgs.genre := undefined;
     UpdateBookArgs.publishYear := val 0%Z;
     UpdateBookArgs.authorName := null;
     UpdateBookArgs.authorNationality := undefined |}.

(** [updateBook({id})]: every updatable argument is left out. *)
Definition id_only (id : string) : UpdateBookArgs.t :=
  {| UpdateBookArgs.id := id;
     UpdateBookArgs.title := undefined;
     UpdateBookArgs.description := undefined;
     UpdateBookArgs.isbn := undefined;
     UpdateBookArgs.publisher := undefined;
     UpdateBookArgs.genre := undefined;
     UpdateBookArgs.publishYear := undefined;
     UpdateBookArgs.authorName := undefined;
     UpdateBookArgs.authorNationality := undefined |}.

(** None of the eight updatable arguments is truthy. *)
Definition nothing_supplied (args : UpdateBookArgs.t) : Prop :=
  truthy (UpdateBookArgs.title args) = false
  ∧ truthy (UpdateBookArgs.description args) = false
  ∧ truthy (UpdateBookArgs.isbn args) = false
  ∧ truthy (UpdateBookArgs.publisher args) = false
  ∧ truthy (UpdateBookArgs.genre args) = false
  ∧ truthy (UpdateBookArgs.publishYear args) = false
  ∧ truthy (UpdateBookArgs.authorName args) = false
  ∧ truthy (UpdateBookArgs.authorNationality args) = false.

(** By how much serving a request changes [books.length]. *)
Definition count_change (r : request) (bs : list Book.t) : Z :=
  match r with
  | AddBook _ args =>
      if bool_decide (AddBookArgs.title args ∈ titles bs) then 0%Z else 1%Z
  | DeleteBook id =>
      if bool_decide (id ∈ ids bs) then (-1)%Z else 0%Z
  | _ => 0%Z
  end.

(** * Properties *)

(** ** Arrays *)

Section JsArrayFacts.
Context {A : Type} (p : A → bool).

Lemma find_undefined (l : list A) :
  (∀ x, x ∈ l → p x = false) → JsArray.find p l = undefined.
Proof.
  induction l as [|x l IH]; intros Hl; simpl; [done|].
  rewrite (Hl x) by left. apply IH. intros y Hy. apply Hl. by right.
Qed.

Lemma find_val_inv (l : list A) (x : A) :
  JsArray.find p l = val x → x ∈ l ∧ p x = true.
Proof.
  induction l as [|y l IH]; simpl; [done|].
  destruct (p y) eqn:Hy.
  - intros [= ->]. split; [left | done].
  - intros [Hx Hp]%IH. split; [by right | done].
Qed.

Lemma find_not_null (l : list A) : JsArray.find p l ≠ null.
Proof. induction l as [|y l IH]; simpl; [done|]. by destruct (p y). Qed.

Lemma find_first (l : list A) (i : nat) (x : A) :
  first_at p l i x → JsArray.find p l = val x.
Proof.
  revert i. induction l as [|y l IH]; intros i (Hi & Hx & Hlt).
  - by rewrite lookup_nil in Hi.
  - simpl. destruct i as [|i].
    + injection Hi as ->. by rewrite Hx.
    + rewrite (Hlt 0 y) by (done || lia). apply (IH i).
      split_and!; [done | done |].
      intros j z Hj Hz. apply (Hlt (S j) z); [lia | done].
Qed.

Lemma findIndex_from_none (l : list A) (k : Z) :
  (∀ x, x ∈ l → p x = false) → JsArray.findIndex_from p l k = (-1)%Z.
Proof.
  revert k. induction l as [|x l IH]; intros k Hl; simpl; [done|].
  rewrite (Hl x) by left. apply IH. intros y Hy. apply Hl. by right.
Qed.

Lemma findIndex_from_first (l : list A) (k : Z) (i : nat) (x : A) :
  first_at p l i x → JsArray.findIndex_from p l k = (k + Z.of_nat i)%Z.
Proof.
  revert k i. induction l as [|y l IH]; intros k i (Hi & Hx & Hlt).
  - by rewrite lookup_nil in Hi.
  - simpl. destruct i as [|i].
    + injection Hi as ->. rewrite Hx. lia.
    + rewrite (Hlt 0 y) by (done || lia). rewrite (IH (k + 1)%Z i); [lia|].
      split_and!; [done | done |].
      intros j z Hj Hz. apply (Hlt (S j) z); [lia | done].
Qed.

Lemma findIndex_none (l : list A) :
  (∀ x, x ∈ l → p x = false) → JsArray.findIndex p l = (-1)%Z.
Proof. apply findIndex_from_none. Qed.

Lemma findIndex_first (l : list A) (i : nat) (x : A) :
  first_at p l i x → JsArray.findIndex p l = Z.of_nat i.
Proof.
  intros H. unfold JsArray.findIndex. by rewrite (findIndex_from_first l 0 i x).
Qed.

(** Some element satisfies [p], or none does. *)
Lemma first_at_or_none (l : list A) :
  (∃ i x, first_at p l i x) ∨ (∀ x, x ∈ l → p x = false).
Proof.
  induction l as [|y l IH].
  - right. intros x Hx. by apply elem_of_nil in Hx.
  - destruct (p y) eqn:Hy.
    + left. exists 0, y. split_and!; [done | done | intros; lia].
    + destruct IH as [(i & x & Hi & Hx & Hlt) | Hnone].
      * left. exists (S i), x. split_and!; [done | done |].
        intros [|j] z Hj Hz; [by injection Hz as <- |].
        apply (Hlt j z); [lia | done].
      * right. intros x [-> | Hx]%elem_of_cons; [done | by apply Hnone].
Qed.

Lemma first_at_exists (l : list A) (x : A) :
  x ∈ l → p x = true → ∃ i y, first_at p l i y.
Proof.
  intros Hx Hp. destruct (first_at_or_none l) as [H | H]; [done|].
  rewrite (H x Hx) in Hp. done.
Qed.

(** The index [findIndex] returns is -1 or that of an element. *)
Lemma findIndex_lookup (l : list A) :
  JsArray.findIndex p l = (-1)%Z
  ∨ ∃ i x, JsArray.findIndex p l = Z.of_nat i ∧ l !! i = Some x.
Proof.
  destruct (first_at_or_none l) as [(i & x & H) | H].
  - right. exists i, x. split; [by apply (findIndex_first l i x) | apply H].
  - left. by apply findIndex_none.
Qed.

Lemma index_lookup (l : list A) (i : nat) :
  JsArray.index l (Z.of_nat i)
  = match l !! i with Some x => val x | None => undefined end.
Proof.
  unfold JsArray.index. rewrite Nat2Z.id.
  destruct (Z.ltb_spec (Z.of_nat i) 0); [lia | done].
Qed.

(** Removing the one element at a position inside the array. *)
Lemma splice_one (l : list A) (i : nat) (x : A) :
  l !! i = Some x →
  JsArray.splice (Z.of_nat i) 1 l = ([x], delete i l).
Proof.
  intros Hi. pose proof (lookup_lt_Some _ _ _ Hi) as Hlt.
  unfold JsArray.splice, JsArray.length.
  destruct (Z.ltb_spec (Z.of_nat i) 0) as [|_]; [lia|].
  rewrite Z.min_l by lia.
  rewrite Z.min_l by lia.
  replace (Z.max 1 0) with 1%Z by lia.
  rewrite Nat2Z.id.
  replace (Z.to_nat (Z.of_nat i + 1)) with (S i) by lia.
  change (Z.to_nat 1) with 1.
  f_equal.
  - rewrite (drop_S _ _ _ Hi). simpl. by rewrite take_0.
  - by rewrite delete_take_drop.
Qed.

End JsArrayFacts.

(** ** Comparisons and lookups by identifier *)

Lemma strict_eq_true (a b : string) : strict_eq a b = true ↔ a = b.
Proof. apply String.eqb_eq. Qed.

Lemma strict_eq_false (a b : string) : strict_eq a b = false ↔ a ≠ b.
Proof. apply String.eqb_neq. Qed.

Lemma strict_eq_js_true (a : string) (b : js string) :
  strict_eq_js a b = true ↔ val a = b.
Proof.
  destruct b as [| |s]; simpl; [done | done |].
  rewrite strict_eq_true. split; congruence.
Qed.

Lemma elem_of_ids (id : string) (bs : list Book.t) :
  id ∈ ids bs ↔ ∃ book, book ∈ bs ∧ Book.id book = id.
Proof.
  unfold ids. rewrite list_elem_of_fmap. split; intros (b & H1 & H2); eauto.
Qed.

Lemma elem_of_titles (title : string) (bs : list Book.t) :
  title ∈ titles bs ↔ ∃ book, book ∈ bs ∧ Book.title book = title.
Proof.
  unfold titles. rewrite list_elem_of_fmap. split; intros (b & H1 & H2); eauto.
Qed.

Lemma no_id_match (id : string) (bs : list Book.t) :
  id ∉ ids bs → ∀ b, b ∈ bs → strict_eq (Book.id b) id = false.
Proof.
  intros Hid b Hb. apply strict_eq_false. intros Heq.
  apply Hid, elem_of_ids. eauto.
Qed.

Lemma first_with_id_exists (id : string) (bs : list Book.t) :
  id ∈ ids bs → ∃ i book, first_with_id id bs i book.
Proof.
  intros (b & Hb & Hid)%elem_of_ids.
  apply (first_at_exists _ bs b Hb). by apply strict_eq_true.
Qed.

Lemma first_with_id_id (id : string) (bs : list Book.t) (i : nat) (b : Book.t) :
  first_with_id id bs i b → Book.id b = id.
Proof. intros (_ & H & _). by apply strict_eq_true. Qed.

(** ** What each resolver computes *)

Lemma getBook_first (id : string) (bs : list Book.t) (i : nat) (b : Book.t) :
  first_with_id id bs i b → getBook (val id) bs = (Returned (val b), bs).
Proof.
  intros H. unfold getBook, bind, get, ret. simpl.
  by rewrite (find_first _ bs i b H).
Qed.

Lemma getBook_none (id : js string) (bs : list Book.t) :
  (∀ b, b ∈ bs → val (Book.id b) ≠ id) →
  getBook id bs = (Returned undefined, bs).
Proof.
  intros H. unfold getBook, bind, get, ret.
  rewrite find_undefined; [done|].
  intros b Hb. destruct (strict_eq_js (Book.id b) id) eqn:E; [|done].
  apply strict_eq_js_true in E. by destruct (H b Hb).
Qed.

Lemma addBook_duplicate (uuid : string) (args : AddBookArgs.t)
    (bs : list Book.t) :
  AddBookArgs.title args ∈ titles bs →
  addBook uuid args bs = (Thrown duplicate_title_error, bs).
Proof.
  intros (b & Hb & Ht)%elem_of_titles.
  unfold addBook, bind, get, throw.
  destruct (first_at_exists
              (λ book, strict_eq (Book.title book) (AddBookArgs.title args))
              bs b Hb) as (i & y & Hy); [by apply strict_eq_true|].
  by rewrite (find_first _ bs i y Hy).
Qed.

Lemma addBook_new (uuid : string) (args : AddBookArgs.t) (bs : list Book.t) :
  AddBookArgs.title args ∉ titles bs →
  addBook uuid args bs
  = (Returned
       {| Book.id := uuid;
          Book.title := AddBookArgs.title args;
          Book.description := AddBookArgs.description args;
          Book.isbn := AddBookArgs.isbn args;
          Book.publisher := AddBookArgs.publisher args;
          Book.genre := AddBookArgs.genre args;
          Book.publishYear := AddBookArgs.publishYear args;
          Book.authorName := AddBookArgs.authorName args;
          Book.authorNationality := AddBookArgs.authorNationality args |},
     bs ++ [
       {| Book.id := uuid;
          Book.title := AddBookArgs.title args;
          Book.description := AddBookArgs.description args;
          Book.isbn := AddBookArgs.isbn args;
          Book.publisher := AddBookArgs.publisher args;
          Book.genre := AddBookArgs.genre args;
          Book.publishYear := AddBookArgs.publishYear args;
          Book.authorName := AddBookArgs.authorName args;
          Book.authorNationality := AddBookArgs.authorNationality args |}]).
Proof.
  intros Ht. unfold addBook, bind, get, put, ret, JsArray.push.
  rewrite find_undefined; [done|].
  intros b Hb. apply strict_eq_false. intros Heq.
  apply Ht, elem_of_titles. eauto.
Qed.

Lemma updateBook_first (args : UpdateBookArgs.t) (bs : list Book.t)
    (i : nat) (book : Book.t) :
  first_with_id (UpdateBookArgs.id args) bs i book →
  updateBook args bs
  = (Returned (val (merge book args)), <[i := merge book args]> bs).
Proof.
  intros H. unfold updateBook, bind, get, put, ret, JsArray.assign.
  rewrite (findIndex_first _ bs i book H).
  destruct (Z.eqb_spec (Z.of_nat i) (-1)) as [|_]; [lia|].
  rewrite index_lookup. destruct H as (-> & _). by rewrite Nat2Z.id.
Qed.

Lemma updateBook_none (args : UpdateBookArgs.t) (bs : list Book.t) :
  UpdateBookArgs.id args ∉ ids bs → updateBook args bs = (Returned null, bs).
Proof.
  intros H. unfold updateBook, bind, get, ret.
  rewrite findIndex_none; [done|]. by apply no_id_match.
Qed.

Lemma deleteBook_first (id : string) (bs : list Book.t)
    (i : nat) (book : Book.t) :
  first_with_id id bs i book →
  deleteBook id bs = (Returned (val book), delete i bs).
Proof.
  intros H. unfold deleteBook, bind, get, put, ret.
  rewrite (findIndex_first _ bs i book H).
  destruct (Z.eqb_spec (Z.of_nat i) (-1)) as [|_]; [lia|].
  destruct H as (Hi & _). by rewrite (splice_one bs i book Hi).
Qed.

Lemma deleteBook_none (id : string) (bs : list Book.t) :
  id ∉ ids bs → deleteBook id bs = (Returned null, bs).
Proof.
  intros H. unfold deleteBook, bind, get, ret.
  rewrite findIndex_none; [done|]. by apply no_id_match.
Qed.

(** The identifier is in the array, or it is not. *)
Lemma id_cases (id : string) (bs : list Book.t) :
  (∃ i book, first_with_id id bs i book) ∨ id ∉ ids bs.
Proof.
  destruct (first_at_or_none (λ b, strict_eq (Book.id b) id) bs)
    as [H | H]; [by left | right].
  intros (b & Hb & Hid)%elem_of_ids.
  specialize (H b Hb). apply strict_eq_false in H. done.
Qed.

(** [updateBook] and [deleteBook] return; they never throw. *)
Lemma updateBook_never_throws (args : UpdateBookArgs.t) (bs : list Book.t) :
  ∃ v, result (updateBook args bs) = Returned v.
Proof.
  destruct (id_cases (UpdateBookArgs.id args) bs) as [(i & b & H) | H].
  - rewrite (updateBook_first args bs i b H). by eexists.
  - rewrite (updateBook_none args bs H). by eexists.
Qed.

Lemma deleteBook_never_throws (id : string) (bs : list Book.t) :
  ∃ v, result (deleteBook id bs) = Returned v.
Proof.
  destruct (id_cases id bs) as [(i & b & H) | H].
  - rewrite (deleteBook_first id bs i b H). by eexists.
  - rewrite (deleteBook_none id bs H). by eexists.
Qed.

(** ** Identifiers stay distinct *)

Lemma ids_insert_same (bs : list Book.t) (i : nat) (b b' : Book.t) :
  bs !! i = Some b → Book.id b' = Book.id b → ids (<[i := b']> bs) = ids bs.
Proof.
  intros Hi Hid. unfold ids. rewrite list_fmap_insert, Hid.
  apply list_insert_id. by rewrite list_lookup_fmap, Hi.
Qed.

Lemma ids_delete (bs : list Book.t) (i : nat) :
  ids (delete i bs) = delete i (ids bs).
Proof.
  unfold ids. revert i. induction bs as [|b bs IH]; intros [|i]; simpl; auto.
  f_equal. apply IH.
Qed.

Lemma NoDup_delete {A} (l : list A) (i : nat) : NoDup l → NoDup (delete i l).
Proof.
  intros H. eapply sublist_NoDup; [done | apply sublist_delete].
Qed.

Lemma NoDup_delete_notin {A} (l : list A) (i : nat) (x : A) :
  NoDup l → l !! i = Some x → x ∉ delete i l.
Proof.
  intros Hnd Hi Hin.
  apply list_elem_of_lookup in Hin as (j & Hj).
  rewrite NoDup_alt in Hnd.
  destruct (decide (j < i)) as [Hlt | Hge].
  - rewrite list_lookup_delete_lt in Hj by done.
    specialize (Hnd _ _ _ Hi Hj). lia.
  - rewrite list_lookup_delete_ge in Hj by lia.
    specialize (Hnd _ _ _ Hi Hj). lia.
Qed.

Lemma serve_ids_NoDup (r : request) (bs : list Book.t) :
  uuid_contract r bs → NoDup (ids bs) → NoDup (ids (serve r bs)).
Proof.
  intros Hc Hnd. destruct r as [| | id | uuid args | args | id]; simpl;
    try done.
  - destruct (decide (AddBookArgs.title args ∈ titles bs)) as [Ht | Ht].
    + by rewrite (addBook_duplicate uuid args bs Ht).
    + rewrite (addBook_new uuid args bs Ht). simpl. unfold ids.
      rewrite fmap_app. simpl. apply NoDup_app. split_and!; [done | |].
      * intros x Hx [->|[]%elem_of_nil]%elem_of_cons. by apply Hc.
      * apply NoDup_singleton.
  - destruct (id_cases (UpdateBookArgs.id args) bs) as [(i & b & H) | H].
    + rewrite (updateBook_first args bs i b H). simpl.
      rewrite (ids_insert_same bs i b); [done | apply H | done].
    + by rewrite (updateBook_none args bs H).
  - destruct (id_cases id bs) as [(i & b & H) | H].
    + rewrite (deleteBook_first id bs i b H). simpl.
      rewrite ids_delete. by apply NoDup_delete.
    + by rewrite (deleteBook_none id bs H).
Qed.

(** In every array the server can hold, the identifiers are pairwise
    distinct. *)
Lemma reachable_ids_NoDup (bs : list Book.t) : reachable bs → NoDup (ids bs).
Proof.
  induction 1 as [|r bs _ IH Hc].
  - unfold ids, books. simpl. apply NoDup_cons. split.
    + intros [[=]|[]%elem_of_nil]%elem_of_cons.
    + apply NoDup_singleton.
  - by apply serve_ids_NoDup.
Qed.

(** ** The literal array *)

Example books_count : getBooksCount books = (Returned 2%Z, books).
Proof. reflexivity. Qed.

Example books_city_of_glass :
  getBook (val "35b19ead-3aa9-415e-a46d-6621e1604119") books
  = (Returned (val city_of_glass), books)
  ∧ result (author city_of_glass books)
    = Returned {| Author.name := "Paul Auster";
                  Author.nationality := val "Estadounidense" |}.
Proof. split; reflexivity. Qed.

(** ** Queries *)

(** C4: in every state of the array, the number [getBooksCount()] returns is
    the number of elements of the sequence [getBooks()] returns. *)
Theorem getBooksCount_is_length_of_getBooks (bs : list Book.t) :
  ∃ l n,
    result (getBooks bs) = Returned l
    ∧ result (getBooksCount bs) = Returned n
    ∧ n = Z.of_nat (List.length l).
Proof. exists bs, (Z.of_nat (List.length bs)). by split_and!. Qed.

(** C9: the read operations [getBooks()], [getBooksCount()], [getBook(id)]
    and the field resolver [Book.author] leave the array as it was, for every
    array and every argument. *)
Theorem reads_leave_store_unchanged
    (bs : list Book.t) (id : js string) (root : Book.t) :
  store (getBooks bs) = bs
  ∧ store (getBooksCount bs) = bs
  ∧ store (getBook id bs) = bs
  ∧ store (author root bs) = bs.
Proof. by split_and!. Qed.

(** ** Identifiers that are not in the array *)

(** C2: for an [id] that no record of the array has, [getBook(id)] returns
    [undefined], and [updateBook({id, ...})] and [deleteBook(id)] return
    [null]; none of them throws, and each leaves the array as it was.  The
    argument of [getBook] is nullable, so it ranges over [undefined] and
    [null] as well. *)
Theorem not_found_returns_absent (bs : list Book.t) (id : js string) :
  (∀ book, book ∈ bs → val (Book.id book) ≠ id) →
  getBook id bs = (Returned undefined, bs)
  ∧ ∀ s args,
      id = val s →
      UpdateBookArgs.id args = s →
      updateBook args bs = (Returned null, bs)
      ∧ deleteBook s bs = (Returned null, bs).
Proof.
  intros Hid. split; [by apply getBook_none|].
  intros s args -> Hs.
  assert (s ∉ ids bs) as Hnot.
  { intros (b & Hb & Heq)%elem_of_ids. apply (Hid b Hb). by rewrite Heq. }
  split.
  - apply updateBook_none. by rewrite Hs.
  - by apply deleteBook_none.
Qed.

Lemma not_found_returns_absent_witness :
  getBook (val sample_uuid) books = (Returned undefined, books)
  ∧ ∀ s args,
      val sample_uuid = val s →
      UpdateBookArgs.id args = s →
      updateBook args books = (Returned null, books)
      ∧ deleteBook s books = (Returned null, books).
Proof.
  apply (not_found_returns_absent books (val sample_uuid)).
  intros book Hb Heq.
  apply elem_of_cons in Hb as [-> | Hb]; [discriminate Heq|].
  apply elem_of_cons in Hb as [-> | Hb]; [discriminate Heq|].
  by apply elem_of_nil in Hb.
Defined.

(** ** Adding a book *)

(** C1: when some record of the array has the title [args.title],
    [addBook(args)] throws the error with the message of the source and the
    code [BAD_USER_INPUT], and the array is as it was: [getBooksCount()] is
    unchanged and so is every record. *)
Theorem addBook_duplicate_title_rejected
    (bs : list Book.t) (uuid : string) (args : AddBookArgs.t) :
  (∃ book, book ∈ bs ∧ Book.title book = AddBookArgs.title args) →
  result (addBook uuid args bs)
  = Thrown (GraphQLError "Título es una valor único" "BAD_USER_INPUT")
  ∧ store (addBook uuid args bs) = bs
  ∧ result (getBooksCount (store (addBook uuid args bs)))
    = result (getBooksCount bs)
  ∧ ∀ i, store (addBook uuid args bs) !! i = bs !! i.
Proof.
  intros H. rewrite (addBook_duplicate uuid args bs); [by split_and!|].
  by apply elem_of_titles.
Qed.

Lemma addBook_duplicate_title_rejected_witness :
  result (addBook sample_uuid (sample_args "City of Glass") books)
  = Thrown (GraphQLError "Título es una valor único" "BAD_USER_INPUT")
  ∧ store (addBook sample_uuid (sample_args "City of Glass") books) = books
  ∧ result (getBooksCount
              (store (addBook sample_uuid (sample_args "City of Glass") books)))
    = result (getBooksCount books)
  ∧ ∀ i, store (addBook sample_uuid (sample_args "City of Glass") books) !! i
         = books !! i.
Proof.
  apply (addBook_duplicate_title_rejected
           books sample_uuid (sample_args "City of Glass")).
  exists city_of_glass. split; [|reflexivity].
  apply list_elem_of_further, list_elem_of_here.
Defined.

Lemma find_app_val {A} (p : A → bool) (l k : list A) (x : A) :
  JsArray.find p l = val x → JsArray.find p (l ++ k) = val x.
Proof.
  induction l as [|y l IH]; simpl; [done|]. by destruct (p y).
Qed.

(** C3: when no record of the array has the title [args.title],
    [addBook(args)] returns the new record, [getBooksCount()] grows by
    exactly one, the new record is the last element behind the unchanged
    earlier ones, it carries the identifier [uuid()] handed out, its scalar
    fields are those of [args], and its [author] is
    [{name: authorName, nationality: authorNationality}].  The identifier is
    not compared with those of the array: [getBook(newId)] returns the new
    record exactly when no record that was already there has it. *)
Theorem addBook_appends_new_record
    (bs : list Book.t) (uuid : string) (args : AddBookArgs.t) :
  (∀ book, book ∈ bs → Book.title book ≠ AddBookArgs.title args) →
  ∃ newBook n,
    addBook uuid args bs = (Returned newBook, bs ++ [newBook])
    ∧ Book.id newBook = uuid
    ∧ result (getBooksCount bs) = Returned n
    ∧ result (getBooksCount (bs ++ [newBook])) = Returned (n + 1)%Z
    ∧ (bs ++ [newBook]) !! List.length bs = Some newBook
    ∧ (∀ i, i < List.length bs → (bs ++ [newBook]) !! i = bs !! i)
    ∧ Book.title newBook = AddBookArgs.title args
    ∧ Book.description newBook = AddBookArgs.description args
    ∧ Book.isbn newBook = AddBookArgs.isbn args
    ∧ Book.publisher newBook = AddBookArgs.publisher args
    ∧ Book.genre newBook = AddBookArgs.genre args
    ∧ Book.publishYear newBook = AddBookArgs.publishYear args
    ∧ Book.authorName newBook = AddBookArgs.authorName args
    ∧ Book.authorNationality newBook = AddBookArgs.authorNationality args
    ∧ result (author newBook (bs ++ [newBook]))
      = Returned {| Author.name := AddBookArgs.authorName args;
                    Author.nationality := AddBookArgs.authorNationality args |}
    ∧ (getBook (val uuid) (bs ++ [newBook])
       = (Returned (val newBook), bs ++ [newBook])
       ↔ ∀ book, book ∈ bs → Book.id book ≠ uuid).
Proof.
  intros Ht.
  assert (AddBookArgs.title args ∉ titles bs) as Ht'.
  { intros (b & Hb & Heq)%elem_of_titles. by apply (Ht b Hb). }
  eexists _, (JsArray.length bs).
  split; [apply (addBook_new uuid args bs Ht')|].
  split_and!; try reflexivity.
  - unfold getBooksCount, bind, get, ret, result, JsArray.length. simpl.
    rewrite length_app. simpl. f_equal. lia.
  - by apply list_lookup_middle.
  - intros i Hi. by apply lookup_app_l.
  - split.
    + intros Hget book Hb Hid.
      destruct (first_with_id_exists uuid bs) as (i & x & Hx);
        [apply elem_of_ids; eauto|].
      assert (x ∈ bs) as Hxbs.
      { apply list_elem_of_lookup. exists i. apply Hx. }
      unfold getBook, bind, get, ret in Hget. simpl in Hget.
      rewrite (find_app_val _ bs _ x (find_first _ bs i x Hx)) in Hget.
      injection Hget as Heq. apply (Ht x Hxbs). by rewrite Heq.
    + intros Hid. apply (getBook_first uuid _ (List.length bs)).
      split_and!.
      * by apply list_lookup_middle.
      * simpl. by apply strict_eq_true.
      * intros j y Hj Hy. rewrite lookup_app_l in Hy by done.
        apply strict_eq_false, (Hid y). apply list_elem_of_lookup. eauto.
Qed.

Lemma addBook_appends_new_record_witness :
  ∃ newBook n,
    addBook sample_uuid (sample_args "Moby-Dick") books
    = (Returned newBook, books ++ [newBook])
    ∧ Book.id newBook = sample_uuid
    ∧ result (getBooksCount books) = Returned n
    ∧ result (getBooksCount (books ++ [newBook])) = Returned (n + 1)%Z
    ∧ (books ++ [newBook]) !! List.length books = Some newBook
    ∧ (∀ i, i < List.length books → (books ++ [newBook]) !! i = books !! i)
    ∧ Book.title newBook = AddBookArgs.title (sample_args "Moby-Dick")
    ∧ Book.description newBook
      = AddBookArgs.description (sample_args "Moby-Dick")
    ∧ Book.isbn newBook = AddBookArgs.isbn (sample_args "Moby-Dick")
    ∧ Book.publisher newBook = AddBookArgs.publisher (sample_args "Moby-Dick")
    ∧ Book.genre newBook = AddBookArgs.genre (sample_args "Moby-Dick")
    ∧ Book.publishYear newBook
      = AddBookArgs.publishYear (sample_args "Moby-Dick")
    ∧ Book.authorName newBook
      = AddBookArgs.authorName (sample_args "Moby-Dick")
    ∧ Book.authorNationality newBook
      = AddBookArgs.authorNationality (sample_args "Moby-Dick")
    ∧ result (author newBook (books ++ [newBook]))
      = Returned
          {| Author.name := AddBookArgs.authorName (sample_args "Moby-Dick");
             Author.nationality :=
               AddBookArgs.authorNationality (sample_args "Moby-Dick") |}
    ∧ (getBook (val sample_uuid) (books ++ [newBook])
       = (Returned (val newBook), books ++ [newBook])
       ↔ ∀ book, book ∈ books → Book.id book ≠ sample_uuid).
Proof.
  apply (addBook_appends_new_record books sample_uuid (sample_args "Moby-Dick")).
  intros book Hb Heq.
  apply elem_of_cons in Hb as [-> | Hb]; [discriminate Heq|].
  apply elem_of_cons in Hb as [-> | Hb]; [discriminate Heq|].
  by apply elem_of_nil in Hb.
Defined.

(** When [uuid()] hands out the identifier of the first literal record,
    [addBook] with a free title still returns and appends the new record,
    whose identifier is then that of a record already in the array, and
    [getBook(newId)] returns the older record, not the new one. *)
Lemma addBook_with_identifier_in_use :
  (∀ book, book ∈ books →
           Book.title book ≠ AddBookArgs.title (sample_args "Moby-Dick"))
  ∧ ∃ newBook,
      addBook (Book.id the_awakening) (sample_args "Moby-Dick") books
      = (Returned newBook, books ++ [newBook])
      ∧ the_awakening ∈ books
      ∧ Book.id newBook = Book.id the_awakening
      ∧ getBook (val (Book.id newBook)) (books ++ [newBook])
        = (Returned (val the_awakening), books ++ [newBook])
      ∧ Book.title the_awakening ≠ AddBookArgs.title (sample_args "Moby-Dick")
      ∧ the_awakening ≠ newBook.
Proof.
  split.
  - intros book Hb Heq.
    apply elem_of_cons in Hb as [-> | Hb]; [discriminate Heq|].
    apply elem_of_cons in Hb as [-> | Hb]; [discriminate Heq|].
    by apply elem_of_nil in Hb.
  - eexists. split; [cbv; reflexivity|].
    split_and!; [apply list_elem_of_here | reflexivity | reflexivity
                | discriminate | discriminate].
Qed.

(** C10: [addBook] throws exactly when some record of the array has a title
    equal, byte for byte, to [args.title], and what it throws then is the
    [BAD_USER_INPUT] error; it checks nothing else, so with any other title
    the record is stored with the title as given.  On the literal array the
    empty title is accepted, and so is a title that differs from a stored one
    only in the case of its letters. *)
Theorem addBook_throws_iff_title_taken :
  (∀ bs uuid args,
     (∃ e, result (addBook uuid args bs) = Thrown e)
     ↔ (∃ book, book ∈ bs ∧ Book.title book = AddBookArgs.title args))
  ∧ (∀ bs uuid args e,
       result (addBook uuid args bs) = Thrown e →
       e = GraphQLError "Título es una valor único" "BAD_USER_INPUT")
  ∧ (∀ bs uuid args,
       (∀ book, book ∈ bs → Book.title book ≠ AddBookArgs.title args) →
       ∃ newBook,
         addBook uuid args bs = (Returned newBook, bs ++ [newBook])
         ∧ Book.title newBook = AddBookArgs.title args)
  ∧ (∃ newBook,
       addBook sample_uuid (sample_args "") books
       = (Returned newBook, books ++ [newBook])
       ∧ Book.title newBook = "")
  ∧ (∃ newBook,
       Book.title the_awakening = "The Awakening"
       ∧ addBook sample_uuid (sample_args "the awakening") books
         = (Returned newBook, books ++ [newBook])
       ∧ Book.title newBook = "the awakening").
Proof.
  assert (∀ bs uuid args,
    AddBookArgs.title args ∈ titles bs
    ∨ ∃ newBook, addBook uuid args bs = (Returned newBook, bs ++ [newBook])
                 ∧ Book.title newBook = AddBookArgs.title args) as Hcases.
  { intros bs uuid args.
    destruct (decide (AddBookArgs.title args ∈ titles bs)) as [H | H];
      [by left | right].
    eexists. split; [apply (addBook_new uuid args bs H) | done]. }
  split_and!.
  - intros bs uuid args. split.
    + intros [e He].
      destruct (Hcases bs uuid args) as [H | (nb & H & _)];
        [by apply elem_of_titles|].
      rewrite H in He. discriminate He.
    + intros H%elem_of_titles. exists duplicate_title_error.
      by rewrite (addBook_duplicate uuid args bs H).
  - intros bs uuid args e He.
    destruct (Hcases bs uuid args) as [H | (nb & H & _)].
    + rewrite (addBook_duplicate uuid args bs H) in He. simpl in He.
      by injection He as <-.
    + rewrite H in He. discriminate He.
  - intros bs uuid args Ht.
    destruct (Hcases bs uuid args) as [(b & Hb & Heq)%elem_of_titles | H];
      [by destruct (Ht b Hb) | done].
  - eexists. split; [cbv; reflexivity | reflexivity].
  - eexists. split_and!; [reflexivity | cbv; reflexivity | reflexivity].
Qed.

(** ** Deleting a book *)

(** Once the first record with an identifier is spliced out of an array
    whose identifiers are distinct, no record has that identifier. *)
Lemma id_gone_after_delete (bs : list Book.t) (id : string)
    (i : nat) (book : Book.t) :
  NoDup (ids bs) → first_with_id id bs i book → id ∉ ids (delete i bs).
Proof.
  intros Hnd H. rewrite ids_delete.
  apply NoDup_delete_notin; [done|].
  unfold ids. rewrite list_lookup_fmap.
  destruct H as (-> & Hid%strict_eq_true & _). simpl. by rewrite Hid.
Qed.



(** ** Updating a book *)

Lemma or_prior_overwritten {A} `{Truthy A} (supplied : js A) (prior : A) :
  overwritten_iff_truthy supplied (val prior) (val (or_prior supplied prior)).
Proof.
  unfold overwritten_iff_truthy, or_prior, truthy at 1 3, js_truthy.
  destruct supplied as [| |a]; [by split | by split |].
  destruct (truthy a); by split.
Qed.

Lemma or_prior_js_overwritten {A} `{Truthy A} (supplied prior : js A) :
  overwritten_iff_truthy supplied prior (or_prior_js supplied prior).
Proof.
  unfold overwritten_iff_truthy, or_prior_js.
  destruct (truthy supplied); by split.
Qed.

(** C6: when the array has a record with the given [id] and [X] is not
    empty, [updateBook({id, title: X})] returns a record that has title [X]
    and in every other field, [id] included, the value of the first record
    with that [id]; it puts that record at the position of the old one, and
    the other positions and the length of the array are as they were. *)
Theorem updateBook_title_only (bs : list Book.t) (id X : string) :
  X ≠ "" →
  (∃ book, book ∈ bs ∧ Book.id book = id) →
  ∃ i book updatedBook bs',
    first_with_id id bs i book
    ∧ updateBook (only_title id X) bs = (Returned (val updatedBook), bs')
    ∧ Book.title updatedBook = X
    ∧ Book.id updatedBook = Book.id book
    ∧ Book.description updatedBook = Book.description book
    ∧ Book.isbn updatedBook = Book.isbn book
    ∧ Book.publisher updatedBook = Book.publisher book
    ∧ Book.genre updatedBook = Book.genre book
    ∧ Book.publishYear updatedBook = Book.publishYear book
    ∧ Book.authorName updatedBook = Book.authorName book
    ∧ Book.authorNationality updatedBook = Book.authorNationality book
    ∧ bs' !! i = Some updatedBook
    ∧ List.length bs' = List.length bs
    ∧ (∀ j, j ≠ i → bs' !! j = bs !! j).
Proof.
  intros HX Hin%elem_of_ids.
  destruct (first_with_id_exists id bs Hin) as (i & book & H).
  exists i, book, (merge book (only_title id X)),
    (<[i := merge book (only_title id X)]> bs).
  split_and!; try done.
  - by apply (updateBook_first (only_title id X)).
  - simpl. unfold or_prior, truthy, string_truthy.
    apply String.eqb_neq in HX. by rewrite HX.
  - apply list_lookup_insert_eq. destruct H as (Hi & _).
    by apply lookup_lt_Some in Hi.
  - apply length_insert.
  - intros j Hj. by apply list_lookup_insert_ne.
Qed.

Lemma updateBook_title_only_witness :
  ∃ i book updatedBook bs',
    first_with_id (Book.id city_of_glass) books i book
    ∧ updateBook (only_title (Book.id city_of_glass) "X") books
      = (Returned (val updatedBook), bs')
    ∧ Book.title updatedBook = "X"
    ∧ Book.id updatedBook = Book.id book
    ∧ Book.description updatedBook = Book.description book
    ∧ Book.isbn updatedBook = Book.isbn book
    ∧ Book.publisher updatedBook = Book.publisher book
    ∧ Book.genre updatedBook = Book.genre book
    ∧ Book.publishYear updatedBook = Book.publishYear book
    ∧ Book.authorName updatedBook = Book.authorName book
    ∧ Book.authorNationality updatedBook = Book.authorNationality book
    ∧ bs' !! i = Some updatedBook
    ∧ List.length bs' = List.length books
    ∧ (∀ j, j ≠ i → bs' !! j = books !! j).
Proof.
  apply (updateBook_title_only books (Book.id city_of_glass) "X").
  - discriminate.
  - exists city_of_glass. split; [|reflexivity].
    apply list_elem_of_further, list_elem_of_here.
Defined.

(** C7: for every record the array has and every input of [updateBook],
    each of the eight updatable fields of the stored record takes the
    supplied value when that value is present and truthy, and keeps its prior
    value otherwise; so an empty string or a zero [publishYear] counts as not
    supplied.  The identifier is kept. *)
Theorem updateBook_overwrites_iff_truthy
    (bs : list Book.t) (args : UpdateBookArgs.t) :
  (∃ book, book ∈ bs ∧ Book.id book = UpdateBookArgs.id args) →
  ∃ i book updatedBook bs',
    first_with_id (UpdateBookArgs.id args) bs i book
    ∧ updateBook args bs = (Returned (val updatedBook), bs')
    ∧ bs' !! i = Some updatedBook
    ∧ Book.id updatedBook = Book.id book
    ∧ overwritten_iff_truthy (UpdateBookArgs.title args)
        (val (Book.title book)) (val (Book.title updatedBook))
    ∧ overwritten_iff_truthy (UpdateBookArgs.description args)
        (Book.description book) (Book.description updatedBook)
    ∧ overwritten_iff_truthy (UpdateBookArgs.isbn args)
        (Book.isbn book) (Book.isbn updatedBook)
    ∧ overwritten_iff_truthy (UpdateBookArgs.publisher args)
        (val (Book.publisher book)) (val (Book.publisher updatedBook))
    ∧ overwritten_iff_truthy (UpdateBookArgs.genre args)
        (val (Book.genre book)) (val (Book.genre updatedBook))
    ∧ overwritten_iff_truthy (UpdateBookArgs.publishYear args)
        (Book.publishYear book) (Book.publishYear updatedBook)
    ∧ overwritten_iff_truthy (UpdateBookArgs.authorName args)
        (val (Book.authorName book)) (val (Book.authorName updatedBook))
    ∧ overwritten_iff_truthy (UpdateBookArgs.authorNationality args)
        (Book.authorNationality book) (Book.authorNationality updatedBook)
    ∧ (UpdateBookArgs.title args = val "" →
       Book.title updatedBook = Book.title book)
    ∧ (UpdateBookArgs.description args = val "" →
       Book.description updatedBook = Book.description book)
    ∧ (UpdateBookArgs.publishYear args = val 0%Z →
       Book.publishYear updatedBook = Book.publishYear book).
Proof.
  intros Hin%elem_of_ids.
  destruct (first_with_id_exists _ bs Hin) as (i & book & H).
  exists i, book, (merge book args), (<[i := merge book args]> bs).
  split_and!; try done.
  - by apply updateBook_first.
  - apply list_lookup_insert_eq. destruct H as (Hi & _).
    by apply lookup_lt_Some in Hi.
  - apply or_prior_overwritten.
  - apply or_prior_js_overwritten.
  - apply or_prior_js_overwritten.
  - apply or_prior_overwritten.
  - apply or_prior_overwritten.
  - apply or_prior_js_overwritten.
  - apply or_prior_overwritten.
  - apply or_prior_js_overwritten.
  - intros Ht. simpl. by rewrite Ht.
  - intros Hd. simpl. by rewrite Hd.
  - intros Hy. simpl. by rewrite Hy.
Qed.

Lemma updateBook_overwrites_iff_truthy_witness :
  ∃ i book updatedBook bs',
    first_with_id (UpdateBookArgs.id falsy_update) books i book
    ∧ updateBook falsy_update books = (Returned (val updatedBook), bs')
    ∧ bs' !! i = Some updatedBook
    ∧ Book.id updatedBook = Book.id book
    ∧ overwritten_iff_truthy (UpdateBookArgs.title falsy_update)
        (val (Book.title book)) (val (Book.title updatedBook))
    ∧ overwritten_iff_truthy (UpdateBookArgs.description falsy_update)
        (Book.description book) (Book.description updatedBook)
    ∧ overwritten_iff_truthy (UpdateBookArgs.isbn falsy_update)
        (Book.isbn book) (Book.isbn updatedBook)
    ∧ overwritten_iff_truthy (UpdateBookArgs.publisher falsy_update)
        (val (Book.publisher book)) (val (Book.publisher updatedBook))
    ∧ overwritten_iff_truthy (UpdateBookArgs.genre falsy_update)
        (val (Book.genre book)) (val (Book.genre updatedBook))
    ∧ overwritten_iff_truthy (UpdateBookArgs.publishYear falsy_update)
        (Book.publishYear book) (Book.publishYear updatedBook)
    ∧ overwritten_iff_truthy (UpdateBookArgs.authorName falsy_update)
        (val (Book.authorName book)) (val (Book.authorName updatedBook))
    ∧ overwritten_iff_truthy (UpdateBookArgs.authorNationality falsy_update)
        (Book.authorNationality book) (Book.authorNationality updatedBook)
    ∧ (UpdateBookArgs.title falsy_update = val "" →
       Book.title updatedBook = Book.title book)
    ∧ (UpdateBookArgs.description falsy_update = val "" →
       Book.description updatedBook = Book.description book)
    ∧ (UpdateBookArgs.publishYear falsy_update = val 0%Z →
       Book.publishYear updatedBook = Book.publishYear book).
Proof.
  apply (updateBook_overwrites_iff_truthy books falsy_update).
  exists the_awakening. split; [apply list_elem_of_here | reflexivity].
Defined.

(** What the sample update leaves of the first literal record: only the
    publisher changes. *)
Example falsy_update_result :
  updateBook falsy_update books
  = (Returned (val {| Book.id := Book.id the_awakening;
                      Book.title := "The Awakening";
                      Book.description := Book.description the_awakening;
                      Book.isbn := undefined;
                      Book.publisher := "Herbert S. Stone & Co";
                      Book.genre := NONE;
                      Book.publishYear := val 1899%Z;
                      Book.authorName := "Kate Chopin";
                      Book.authorNationality := undefined |}),
     [ {| Book.id := Book.id the_awakening;
          Book.title := "The Awakening";
          Book.description := Book.description the_awakening;
          Book.isbn := undefined;
          Book.publisher := "Herbert S. Stone & Co";
          Book.genre := NONE;
          Book.publishYear := val 1899%Z;
          Book.authorName := "Kate Chopin";
          Book.authorNationality := undefined |};
       city_of_glass ]).
Proof. reflexivity. Qed.

(** C8: [updateBook] checks no title: it never throws, and there is an array
    the server can hold, with pairwise distinct titles, on which an
    [updateBook] returns a record and leaves two records with different
    identifiers and the same title. *)
Theorem updateBook_can_duplicate_title :
  (∀ args bs, ∃ v, result (updateBook args bs) = Returned v)
  ∧ ∃ bs args updatedBook bs' i j b1 b2,
      reachable bs
      ∧ NoDup (titles bs)
      ∧ updateBook args bs = (Returned (val updatedBook), bs')
      ∧ reachable bs'
      ∧ i ≠ j
      ∧ bs' !! i = Some b1
      ∧ bs' !! j = Some b2
      ∧ Book.id b1 ≠ Book.id b2
      ∧ Book.title b1 = Book.title b2.
Proof.
  split; [apply updateBook_never_throws|].
  exists books, (only_title (Book.id the_awakening) "City of Glass").
  exists (merge the_awakening
            (only_title (Book.id the_awakening) "City of Glass")).
  exists [merge the_awakening
            (only_title (Book.id the_awakening) "City of Glass");
          city_of_glass].
  exists 0, 1.
  exists (merge the_awakening
            (only_title (Book.id the_awakening) "City of Glass")).
  exists city_of_glass.
  split_and!; try reflexivity.
  - apply reachable_init.
  - unfold titles, books. simpl. apply NoDup_cons. split.
    + intros [[=]|[]%elem_of_nil]%elem_of_cons.
    + apply NoDup_singleton.
  - apply (reachable_serve
             (UpdateBook (only_title (Book.id the_awakening) "City of Glass"))
             books reachable_init I).
  - lia.
  - discriminate.
Qed.

(** * Further properties of the resolvers *)

(** ** Searching an array that was changed at one place *)

Section JsArrayChanges.
Context {A : Type} (p : A → bool).

Lemma find_push_false (l : list A) (y : A) :
  p y = false → JsArray.find p (JsArray.push l y) = JsArray.find p l.
Proof.
  intros Hy. unfold JsArray.push.
  induction l as [|x l IH]; simpl; [by rewrite Hy|].
  by destruct (p x).
Qed.

Lemma find_insert_false (l : list A) (i : nat) (x y : A) :
  l !! i = Some x → p x = false → p y = false →
  JsArray.find p (<[i := y]> l) = JsArray.find p l.
Proof.
  revert i. induction l as [|z l IH]; intros [|i] Hi Hx Hy; simpl in *;
    try done.
  - injection Hi as ->. by rewrite Hx, Hy.
  - destruct (p z); [done|]. by apply IH.
Qed.

Lemma find_delete_false (l : list A) (i : nat) (x : A) :
  l !! i = Some x → p x = false →
  JsArray.find p (delete i l) = JsArray.find p l.
Proof.
  revert i. induction l as [|z l IH]; intros [|i] Hi Hx; simpl in *;
    try done.
  - injection Hi as ->. by rewrite Hx.
  - destruct (p z); [done|]. by apply IH.
Qed.

Lemma first_at_insert (l : list A) (i : nat) (x y : A) :
  first_at p l i x → p y = true → first_at p (<[i := y]> l) i y.
Proof.
  intros (Hi & _ & Hlt) Hy. split_and!; [|done|].
  - apply list_lookup_insert_eq. by apply lookup_lt_Some in Hi.
  - intros j z Hj Hz. rewrite list_lookup_insert_ne in Hz by lia.
    by apply (Hlt j z).
Qed.

Lemma first_at_push (l : list A) (y : A) :
  (∀ x, x ∈ l → p x = false) → p y = true →
  first_at p (JsArray.push l y) (List.length l) y.
Proof.
  intros Hl Hy. unfold JsArray.push. split_and!; [|done|].
  - by apply list_lookup_middle.
  - intros j z Hj Hz. rewrite lookup_app_l in Hz by done.
    apply Hl. apply list_elem_of_lookup. eauto.
Qed.

Lemma first_at_unique (l : list A) (i j : nat) (x y : A) :
  first_at p l i x → first_at p l j y → i = j ∧ x = y.
Proof.
  intros (Hi & Hx & Hlti) (Hj & Hy & Hltj).
  assert (i = j) as ->.
  { destruct (Nat.lt_trichotomy i j) as [H | [H | H]]; [|done|].
    - rewrite (Hltj i x H Hi) in Hx. done.
    - rewrite (Hlti j y H Hj) in Hy. done. }
  split; [done | congruence].
Qed.

End JsArrayChanges.

(** ** The merged record *)

Lemma or_prior_idem {A} `{Truthy A} (supplied : js A) (prior : A) :
  or_prior supplied (or_prior supplied prior) = or_prior supplied prior.
Proof.
  unfold or_prior. destruct supplied as [| |a]; [done | done |].
  by destruct (truthy a).
Qed.

Lemma or_prior_js_idem {A} `{Truthy A} (supplied prior : js A) :
  or_prior_js supplied (or_prior_js supplied prior)
  = or_prior_js supplied prior.
Proof. unfold or_prior_js. by destruct (truthy supplied). Qed.

Lemma merge_idem (book : Book.t) (args : UpdateBookArgs.t) :
  merge (merge book args) args = merge book args.
Proof.
  unfold merge. simpl.
  by rewrite !or_prior_idem, !or_prior_js_idem.
Qed.

Lemma or_prior_falsy {A} `{Truthy A} (supplied : js A) (prior : A) :
  truthy supplied = false → or_prior supplied prior = prior.
Proof.
  unfold or_prior. destruct supplied as [| |a]; [done | done |].
  unfold truthy at 1, js_truthy. by intros ->.
Qed.

Lemma or_prior_js_falsy {A} `{Truthy A} (supplied prior : js A) :
  truthy supplied = false → or_prior_js supplied prior = prior.
Proof. unfold or_prior_js. by intros ->. Qed.

Lemma merge_nothing_supplied (book : Book.t) (args : UpdateBookArgs.t) :
  nothing_supplied args → merge book args = book.
Proof.
  intros (H1 & H2 & H3 & H4 & H5 & H6 & H7 & H8).
  unfold merge.
  rewrite !or_prior_falsy, !or_prior_js_falsy by done.
  by destruct book.
Qed.

Lemma first_with_id_merge (args : UpdateBookArgs.t) (bs : list Book.t)
    (i : nat) (book : Book.t) :
  first_with_id (UpdateBookArgs.id args) bs i book →
  first_with_id (UpdateBookArgs.id args)
    (<[i := merge book args]> bs) i (merge book args).
Proof.
  intros H. apply (first_at_insert _ bs i book); [done|]. apply H.
Qed.

Lemma titles_delete (bs : list Book.t) (i : nat) :
  titles (delete i bs) = delete i (titles bs).
Proof. apply list_fmap_delete. Qed.

Lemma no_title_match (title : string) (bs : list Book.t) :
  title ∉ titles bs → ∀ b, b ∈ bs → strict_eq (Book.title b) title = false.
Proof.
  intros Ht b Hb. apply strict_eq_false. intros Heq.
  apply Ht, elem_of_titles. eauto.
Qed.

(** ** Identifiers and titles across requests *)

(** X1: in every array the server can hold the identifiers are pairwise
    distinct, so [getBook] with the identifier of any stored record returns
    that very record, wherever in the array it is. *)
Theorem reachable_record_found_by_its_id
    (bs : list Book.t) (i : nat) (book : Book.t) :
  reachable bs →
  bs !! i = Some book →
  NoDup (ids bs)
  ∧ getBook (val (Book.id book)) bs = (Returned (val book), bs).
Proof.
  intros Hnd%reachable_ids_NoDup Hi. split; [done|].
  apply (getBook_first _ bs i). split_and!; [done | by apply strict_eq_true |].
  intros j y Hj Hy. apply strict_eq_false. intros Heq.
  rewrite NoDup_alt in Hnd.
  assert (j = i) as ->; [|lia].
  apply (Hnd j i (Book.id book)); unfold ids; rewrite list_lookup_fmap.
  - by rewrite Hy, <- Heq.
  - by rewrite Hi.
Qed.

Lemma reachable_record_found_by_its_id_witness :
  NoDup (ids books)
  ∧ getBook (val (Book.id city_of_glass)) books
    = (Returned (val city_of_glass), books).
Proof.
  apply (reachable_record_found_by_its_id books 1 city_of_glass).
  - apply reachable_init.
  - reflexivity.
Defined.

(** X2: [addBook] and [deleteBook] keep the titles pairwise distinct: when
    no two records of the array share a title, none do after either of
    them. *)
Theorem addBook_deleteBook_keep_titles_distinct
    (bs : list Book.t) (uuid : string) (args : AddBookArgs.t) (id : string) :
  NoDup (titles bs) →
  NoDup (titles (store (addBook uuid args bs)))
  ∧ NoDup (titles (store (deleteBook id bs))).
Proof.
  intros Hnd. split.
  - destruct (decide (AddBookArgs.title args ∈ titles bs)) as [Ht | Ht].
    + by rewrite (addBook_duplicate uuid args bs Ht).
    + rewrite (addBook_new uuid args bs Ht). simpl. unfold titles.
      rewrite fmap_app. simpl. apply NoDup_app. split_and!; [done | |].
      * intros x Hx [->|[]%elem_of_nil]%elem_of_cons. by apply Ht.
      * apply NoDup_singleton.
  - destruct (id_cases id bs) as [(i & b & H) | H].
    + rewrite (deleteBook_first id bs i b H). simpl.
      rewrite titles_delete. by apply NoDup_delete.
    + by rewrite (deleteBook_none id bs H).
Qed.

Lemma addBook_deleteBook_keep_titles_distinct_witness :
  NoDup (titles (store (addBook sample_uuid (sample_args "Moby-Dick") books)))
  ∧ NoDup (titles (store (deleteBook (Book.id the_awakening) books))).
Proof.
  apply (addBook_deleteBook_keep_titles_distinct books sample_uuid
           (sample_args "Moby-Dick") (Book.id the_awakening)).
  unfold titles, books. simpl. apply NoDup_cons. split.
  - intros [[=]|[]%elem_of_nil]%elem_of_cons.
  - apply NoDup_singleton.
Defined.

(** X3: [deleteBook] undoes [addBook].  When the title is free and no record
    has the identifier [uuid()] hands out, deleting the record that
    [addBook] returned, by its identifier, returns that record and leaves the
    array exactly as it was before the two calls. *)
Theorem addBook_then_deleteBook_restores
    (bs : list Book.t) (uuid : string) (args : AddBookArgs.t) :
  (∀ book, book ∈ bs → Book.title book ≠ AddBookArgs.title args) →
  (∀ book, book ∈ bs → Book.id book ≠ uuid) →
  ∃ newBook,
    result (addBook uuid args bs) = Returned newBook
    ∧ deleteBook (Book.id newBook) (store (addBook uuid args bs))
      = (Returned (val newBook), bs).
Proof.
  intros Ht Hid.
  assert (AddBookArgs.title args ∉ titles bs) as Ht'.
  { intros (b & Hb & Heq)%elem_of_titles. by apply (Ht b Hb). }
  eexists. rewrite (addBook_new uuid args bs Ht'). split; [done|].
  simpl.
  erewrite (deleteBook_first uuid _ (List.length bs)).
  - f_equal. rewrite (delete_middle bs []). apply app_nil_r.
  - apply (first_at_push (λ b, strict_eq (Book.id b) uuid) bs).
    + intros x Hx. apply strict_eq_false. by apply Hid.
    + by apply strict_eq_true.
Qed.

Lemma addBook_then_deleteBook_restores_witness :
  ∃ newBook,
    result (addBook sample_uuid (sample_args "Moby-Dick") books)
    = Returned newBook
    ∧ deleteBook (Book.id newBook)
        (store (addBook sample_uuid (sample_args "Moby-Dick") books))
      = (Returned (val newBook), books).
Proof.
  apply (addBook_then_deleteBook_restores books sample_uuid
           (sample_args "Moby-Dick")).
  - intros book Hb Heq.
    apply elem_of_cons in Hb as [-> | Hb]; [discriminate Heq|].
    apply elem_of_cons in Hb as [-> | Hb]; [discriminate Heq|].
    by apply elem_of_nil in Hb.
  - intros book Hb Heq.
    apply elem_of_cons in Hb as [-> | Hb]; [discriminate Heq|].
    apply elem_of_cons in Hb as [-> | Hb]; [discriminate Heq|].
    by apply elem_of_nil in Hb.
Defined.

(** X4: an [addBook] that directly follows an [addBook] with the same title,
    on the array that call left and with no other request in between,
    throws the [BAD_USER_INPUT] error and changes nothing, whether the first
    call returned or threw. *)
Theorem addBook_again_is_rejected
    (bs : list Book.t) (uuid uuid' : string) (args args' : AddBookArgs.t) :
  AddBookArgs.title args' = AddBookArgs.title args →
  addBook uuid' args' (store (addBook uuid args bs))
  = (Thrown (GraphQLError "Título es una valor único" "BAD_USER_INPUT"),
     store (addBook uuid args bs)).
Proof.
  intros Heq. apply addBook_duplicate. rewrite Heq.
  destruct (decide (AddBookArgs.title args ∈ titles bs)) as [Ht | Ht].
  - by rewrite (addBook_duplicate uuid args bs Ht).
  - rewrite (addBook_new uuid args bs Ht). simpl. unfold titles.
    rewrite fmap_app. apply elem_of_app. right. simpl. left.
Qed.

Lemma addBook_again_is_rejected_witness :
  addBook sample_uuid (sample_args "Moby-Dick")
    (store (addBook sample_uuid (sample_args "Moby-Dick") books))
  = (Thrown (GraphQLError "Título es una valor único" "BAD_USER_INPUT"),
     store (addBook sample_uuid (sample_args "Moby-Dick") books)).
Proof.
  apply (addBook_again_is_rejected books sample_uuid sample_uuid
           (sample_args "Moby-Dick") (sample_args "Moby-Dick")).
  reflexivity.
Defined.

(** X5: when the identifiers of the array are pairwise distinct, a second
    [deleteBook] with the same [id] finds nothing: it returns [null] and
    leaves the array the first one left. *)
Theorem deleteBook_twice (bs : list Book.t) (id : string) :
  NoDup (ids bs) →
  deleteBook id (store (deleteBook id bs))
  = (Returned null, store (deleteBook id bs)).
Proof.
  intros Hnd. apply deleteBook_none.
  destruct (id_cases id bs) as [(i & b & H) | H].
  - rewrite (deleteBook_first id bs i b H). simpl.
    by apply (id_gone_after_delete bs id i b).
  - by rewrite (deleteBook_none id bs H).
Qed.

Lemma deleteBook_twice_witness :
  deleteBook (Book.id city_of_glass)
    (store (deleteBook (Book.id city_of_glass) books))
  = (Returned null, store (deleteBook (Book.id city_of_glass) books)).
Proof.
  apply (deleteBook_twice books (Book.id city_of_glass)).
  unfold ids, books. simpl. apply NoDup_cons. split.
  - intros [[=]|[]%elem_of_nil]%elem_of_cons.
  - apply NoDup_singleton.
Defined.

(** ** Updating a book again *)

(** X6: [updateBook] is idempotent: running it a second time with the same
    arguments returns what the first run returned and leaves the array the
    first run left. *)
Theorem updateBook_idempotent (bs : list Book.t) (args : UpdateBookArgs.t) :
  updateBook args (store (updateBook args bs))
  = (result (updateBook args bs), store (updateBook args bs)).
Proof.
  destruct (id_cases (UpdateBookArgs.id args) bs) as [(i & b & H) | H].
  - rewrite (updateBook_first args bs i b H). simpl.
    rewrite (updateBook_first args _ i (merge b args))
      by by apply first_with_id_merge.
    by rewrite merge_idem, list_insert_insert_eq.
  - rewrite (updateBook_none args bs H). simpl.
    by apply updateBook_none.
Qed.

(** X7: [updateBook] never changes an identifier or the number of records:
    whatever the arguments, the identifiers of the array, position by
    position, and [getBooksCount()] are afterwards what they were. *)
Theorem updateBook_keeps_ids_and_count
    (bs : list Book.t) (args : UpdateBookArgs.t) :
  ids (store (updateBook args bs)) = ids bs
  ∧ result (getBooksCount (store (updateBook args bs)))
    = result (getBooksCount bs).
Proof.
  destruct (id_cases (UpdateBookArgs.id args) bs) as [(i & b & H) | H].
  - rewrite (updateBook_first args bs i b H). simpl. split.
    + apply (ids_insert_same bs i b); [apply H | done].
    + unfold getBooksCount, bind, get, ret, result, JsArray.length. simpl.
      by rewrite length_insert.
  - by rewrite (updateBook_none args bs H).
Qed.

(** X8: an [updateBook] in which no argument is truthy (all left out, null,
    empty or zero) changes nothing: the array is left as it was, and when a
    record has the [id], that record is returned as it is stored. *)
Theorem updateBook_nothing_supplied_changes_nothing
    (bs : list Book.t) (args : UpdateBookArgs.t) :
  nothing_supplied args →
  store (updateBook args bs) = bs
  ∧ ∀ i book,
      first_with_id (UpdateBookArgs.id args) bs i book →
      result (updateBook args bs) = Returned (val book).
Proof.
  intros Hn. split.
  - destruct (id_cases (UpdateBookArgs.id args) bs) as [(i & b & H) | H].
    + rewrite (updateBook_first args bs i b H). simpl.
      rewrite (merge_nothing_supplied b args Hn).
      apply list_insert_id, H.
    + by rewrite (updateBook_none args bs H).
  - intros i book H. rewrite (updateBook_first args bs i book H). simpl.
    by rewrite (merge_nothing_supplied book args Hn).
Qed.

Lemma updateBook_nothing_supplied_changes_nothing_witness :
  store (updateBook (id_only (Book.id city_of_glass)) books) = books
  ∧ ∀ i book,
      first_with_id
        (UpdateBookArgs.id (id_only (Book.id city_of_glass))) books i book →
      result (updateBook (id_only (Book.id city_of_glass)) books)
      = Returned (val book).
Proof.
  apply (updateBook_nothing_supplied_changes_nothing
           books (id_only (Book.id city_of_glass))).
  unfold nothing_supplied. repeat split; reflexivity.
Defined.

(** X9: a [getBook] that follows an [updateBook] on an [id] the array has
    returns the record the update returned. *)
Theorem getBook_after_updateBook
    (bs : list Book.t) (args : UpdateBookArgs.t) :
  (∃ book, book ∈ bs ∧ Book.id book = UpdateBookArgs.id args) →
  ∃ updatedBook,
    result (updateBook args bs) = Returned (val updatedBook)
    ∧ getBook (val (UpdateBookArgs.id args)) (store (updateBook args bs))
      = (Returned (val updatedBook), store (updateBook args bs)).
Proof.
  intros Hin%elem_of_ids.
  destruct (first_with_id_exists _ bs Hin) as (i & b & H).
  exists (merge b args). rewrite (updateBook_first args bs i b H).
  split; [done|]. simpl.
  apply (getBook_first _ _ i). by apply first_with_id_merge.
Qed.

Lemma getBook_after_updateBook_witness :
  ∃ updatedBook,
    result (updateBook falsy_update books) = Returned (val updatedBook)
    ∧ getBook (val (UpdateBookArgs.id falsy_update))
        (store (updateBook falsy_update books))
      = (Returned (val updatedBook), store (updateBook falsy_update books)).
Proof.
  apply (getBook_after_updateBook books falsy_update).
  exists the_awakening. split; [apply list_elem_of_here | reflexivity].
Defined.

(** ** What a mutation leaves alone *)

(** X10: a mutation that works on one identifier does not change what
    [getBook] returns for any other: after [addBook] handing out [id], after
    [updateBook] on [id] and after [deleteBook(id)], [getBook(other)]
    returns what it returned before, for every [other] that is not [id]. *)
Theorem getBook_of_other_id_unchanged
    (bs : list Book.t) (id : string) (other : js string)
    (aargs : AddBookArgs.t) (uargs : UpdateBookArgs.t) :
  other ≠ val id →
  UpdateBookArgs.id uargs = id →
  result (getBook other (store (addBook id aargs bs)))
  = result (getBook other bs)
  ∧ result (getBook other (store (updateBook uargs bs)))
    = result (getBook other bs)
  ∧ result (getBook other (store (deleteBook id bs)))
    = result (getBook other bs).
Proof.
  intros Hne Hu.
  assert (∀ b, Book.id b = id → strict_eq_js (Book.id b) other = false)
    as Hp.
  { intros b Hb. destruct (strict_eq_js (Book.id b) other) eqn:E; [|done].
    apply strict_eq_js_true in E. destruct Hne. by rewrite <- E, Hb. }
  unfold getBook, bind, get, ret, result. simpl. split_and!; f_equal.
  - destruct (decide (AddBookArgs.title aargs ∈ titles bs)) as [Ht | Ht].
    + by rewrite (addBook_duplicate id aargs bs Ht).
    + rewrite (addBook_new id aargs bs Ht). simpl.
      apply (find_push_false _ bs). by apply Hp.
  - destruct (id_cases (UpdateBookArgs.id uargs) bs) as [(i & b & H) | H].
    + rewrite (updateBook_first uargs bs i b H). simpl.
      apply (find_insert_false _ bs i b); [apply H | |].
      * apply Hp. rewrite <- Hu. by apply (first_with_id_id _ bs i).
      * apply Hp. simpl. rewrite <- Hu. by apply (first_with_id_id _ bs i).
    + by rewrite (updateBook_none uargs bs H).
  - destruct (id_cases id bs) as [(i & b & H) | H].
    + rewrite (deleteBook_first id bs i b H). simpl.
      apply (find_delete_false _ bs i b); [apply H |].
      apply Hp. by apply (first_with_id_id _ bs i).
    + by rewrite (deleteBook_none id bs H).
Qed.

Lemma getBook_of_other_id_unchanged_witness :
  result (getBook (val (Book.id city_of_glass))
            (store (addBook sample_uuid (sample_args "Moby-Dick") books)))
  = result (getBook (val (Book.id city_of_glass)) books)
  ∧ result (getBook (val (Book.id city_of_glass))
              (store (updateBook (id_only sample_uuid) books)))
    = result (getBook (val (Book.id city_of_glass)) books)
  ∧ result (getBook (val (Book.id city_of_glass))
              (store (deleteBook sample_uuid books)))
    = result (getBook (val (Book.id city_of_glass)) books).
Proof.
  apply (getBook_of_other_id_unchanged books sample_uuid
           (val (Book.id city_of_glass)) (sample_args "Moby-Dick")
           (id_only sample_uuid)).
  - discriminate.
  - reflexivity.
Defined.

(** X11: a mutation leaves every other record alone.  A record of the array
    is still at its position after any [addBook]; it is still at its
    position after an [updateBook] on another identifier; and it is still in
    the array after a [deleteBook] of another identifier. *)
Theorem other_records_untouched (bs : list Book.t) (k : nat) (b : Book.t) :
  bs !! k = Some b →
  (∀ uuid args, store (addBook uuid args bs) !! k = Some b)
  ∧ (∀ args, Book.id b ≠ UpdateBookArgs.id args →
             store (updateBook args bs) !! k = Some b)
  ∧ (∀ id, Book.id b ≠ id → b ∈ store (deleteBook id bs)).
Proof.
  intros Hk. split_and!.
  - intros uuid args.
    destruct (decide (AddBookArgs.title args ∈ titles bs)) as [Ht | Ht].
    + by rewrite (addBook_duplicate uuid args bs Ht).
    + rewrite (addBook_new uuid args bs Ht). simpl.
      rewrite lookup_app_l; [done | by apply lookup_lt_Some in Hk].
  - intros args Hne.
    destruct (id_cases (UpdateBookArgs.id args) bs) as [(i & x & H) | H].
    + rewrite (updateBook_first args bs i x H). simpl.
      rewrite list_lookup_insert_ne; [done|].
      intros ->. destruct H as (Hi & Hx%strict_eq_true & _).
      rewrite Hk in Hi. injection Hi as ->. done.
    + by rewrite (updateBook_none args bs H).
  - intros id Hne.
    destruct (id_cases id bs) as [(i & x & H) | H].
    + rewrite (deleteBook_first id bs i x H). simpl.
      assert (k ≠ i) as Hki.
      { intros ->. destruct H as (Hi & Hx%strict_eq_true & _).
        rewrite Hk in Hi. injection Hi as ->. done. }
      apply list_elem_of_lookup.
      destruct (decide (k < i)) as [Hlt | Hge].
      * exists k. by rewrite list_lookup_delete_lt.
      * exists (pred k). rewrite list_lookup_delete_ge by lia.
        by replace (S (pred k)) with k by lia.
    + rewrite (deleteBook_none id bs H). simpl.
      apply list_elem_of_lookup. eauto.
Qed.

Lemma other_records_untouched_witness :
  (∀ uuid args, store (addBook uuid args books) !! 1 = Some city_of_glass)
  ∧ (∀ args, Book.id city_of_glass ≠ UpdateBookArgs.id args →
             store (updateBook args books) !! 1 = Some city_of_glass)
  ∧ (∀ id, Book.id city_of_glass ≠ id →
           city_of_glass ∈ store (deleteBook id books)).
Proof.
  apply (other_records_untouched books 1 city_of_glass). reflexivity.
Defined.

(** ** What a result tells *)

(** X12: an absent result means exactly that no record has the identifier.
    [getBook(id)] returns [undefined], and [updateBook] and [deleteBook]
    return [null], if and only if the array has no record with the [id];
    [getBook] never returns [null] and the two mutations never return
    [undefined]. *)
Theorem absent_result_iff_not_found
    (bs : list Book.t) (args : UpdateBookArgs.t) :
  (result (getBook (val (UpdateBookArgs.id args)) bs) = Returned undefined
   ↔ UpdateBookArgs.id args ∉ ids bs)
  ∧ (result (updateBook args bs) = Returned null
     ↔ UpdateBookArgs.id args ∉ ids bs)
  ∧ (result (deleteBook (UpdateBookArgs.id args) bs) = Returned null
     ↔ UpdateBookArgs.id args ∉ ids bs)
  ∧ result (getBook (val (UpdateBookArgs.id args)) bs) ≠ Returned null
  ∧ result (updateBook args bs) ≠ Returned undefined
  ∧ result (deleteBook (UpdateBookArgs.id args) bs) ≠ Returned undefined.
Proof.
  destruct (id_cases (UpdateBookArgs.id args) bs) as [(i & b & H) | H].
  - assert (¬ (UpdateBookArgs.id args ∉ ids bs)) as Hin.
    { intros Hn. apply Hn, elem_of_ids. exists b. split.
      - apply list_elem_of_lookup. exists i. apply H.
      - by apply (first_with_id_id _ bs i). }
    rewrite (getBook_first _ bs i b H), (updateBook_first args bs i b H),
      (deleteBook_first _ bs i b H). simpl.
    split_and!; try done; split; try done.
  - rewrite (updateBook_none args bs H), (deleteBook_none _ bs H).
    rewrite (getBook_none (val (UpdateBookArgs.id args)) bs).
    + simpl. split_and!; try done.
    + intros x Hx [= Heq]. apply H, elem_of_ids. eauto.
Qed.

(** X13: a record that a resolver returns for an identifier has that
    identifier: the record [getBook] or [deleteBook] returns is a record of
    the array with the requested [id], and the record [updateBook] returns
    has the requested [id] and is in the array it leaves. *)
Theorem returned_record_has_requested_id
    (bs : list Book.t) (args : UpdateBookArgs.t) (book : Book.t) :
  (result (getBook (val (UpdateBookArgs.id args)) bs) = Returned (val book) →
   Book.id book = UpdateBookArgs.id args ∧ book ∈ bs)
  ∧ (result (updateBook args bs) = Returned (val book) →
     Book.id book = UpdateBookArgs.id args
     ∧ book ∈ store (updateBook args bs))
  ∧ (result (deleteBook (UpdateBookArgs.id args) bs) = Returned (val book) →
     Book.id book = UpdateBookArgs.id args ∧ book ∈ bs).
Proof.
  destruct (id_cases (UpdateBookArgs.id args) bs) as [(i & b & H) | H].
  - pose proof (first_with_id_id _ bs i b H) as Hid.
    assert (b ∈ bs) as Hb.
    { apply list_elem_of_lookup. exists i. apply H. }
    rewrite (getBook_first _ bs i b H), (updateBook_first args bs i b H),
      (deleteBook_first _ bs i b H). simpl.
    split_and!.
    + by intros [= <-].
    + intros [= <-]. split; [done|].
      apply list_elem_of_insert. destruct H as (Hi & _).
      by apply lookup_lt_Some in Hi.
    + by intros [= <-].
  - rewrite (updateBook_none args bs H), (deleteBook_none _ bs H).
    rewrite (getBook_none (val (UpdateBookArgs.id args)) bs).
    + simpl. by split_and!.
    + intros x Hx [= Heq]. apply H, elem_of_ids. eauto.
Qed.

(** ** Fields that cannot be cleared *)

Lemma or_prior_stays_truthy {A} `{Truthy A} (supplied : js A) (prior : A) :
  truthy prior = true → truthy (or_prior supplied prior) = true.
Proof.
  intros Hp. unfold or_prior. destruct supplied as [| |a]; [done | done |].
  by destruct (truthy a) eqn:E.
Qed.

Lemma or_prior_js_stays_truthy {A} `{Truthy A} (supplied prior : js A) :
  truthy prior = true → truthy (or_prior_js supplied prior) = true.
Proof.
  intros Hp. unfold or_prior_js. by destruct (truthy supplied) eqn:E.
Qed.

(** X14: [updateBook] cannot clear a field.  Whatever the arguments, a field
    of the stored record that holds a truthy value (a non-empty string, a
    non-zero year) holds a truthy value in the updated record; in particular
    a non-empty title never becomes empty. *)
Theorem updateBook_never_clears_a_field
    (bs : list Book.t) (args : UpdateBookArgs.t) (i : nat) (book : Book.t) :
  first_with_id (UpdateBookArgs.id args) bs i book →
  ∃ updatedBook,
    result (updateBook args bs) = Returned (val updatedBook)
    ∧ (Book.title book ≠ "" → Book.title updatedBook ≠ "")
    ∧ (truthy (Book.description book) = true →
       truthy (Book.description updatedBook) = true)
    ∧ (truthy (Book.isbn book) = true →
       truthy (Book.isbn updatedBook) = true)
    ∧ (Book.publisher book ≠ "" → Book.publisher updatedBook ≠ "")
    ∧ (truthy (Book.publishYear book) = true →
       truthy (Book.publishYear updatedBook) = true)
    ∧ (Book.authorName book ≠ "" → Book.authorName updatedBook ≠ "")
    ∧ (truthy (Book.authorNationality book) = true →
       truthy (Book.authorNationality updatedBook) = true).
Proof.
  intros H. exists (merge book args).
  rewrite (updateBook_first args bs i book H).
  assert (∀ (supplied : js string) (prior : string),
            prior ≠ "" → or_prior supplied prior ≠ "") as Hs.
  { intros supplied prior Hp%String.eqb_neq.
    apply String.eqb_neq.
    pose proof (or_prior_stays_truthy supplied prior) as Ht.
    unfold truthy at 1 2, string_truthy in Ht.
    rewrite Hp in Ht. specialize (Ht eq_refl).
    by apply negb_true_iff in Ht. }
  split_and!; try done; simpl.
  - apply Hs.
  - apply or_prior_js_stays_truthy.
  - apply or_prior_js_stays_truthy.
  - apply Hs.
  - apply or_prior_js_stays_truthy.
  - apply Hs.
  - apply or_prior_js_stays_truthy.
Qed.

Lemma updateBook_never_clears_a_field_witness :
  ∃ updatedBook,
    result (updateBook falsy_update books) = Returned (val updatedBook)
    ∧ (Book.title the_awakening ≠ "" → Book.title updatedBook ≠ "")
    ∧ (truthy (Book.description the_awakening) = true →
       truthy (Book.description updatedBook) = true)
    ∧ (truthy (Book.isbn the_awakening) = true →
       truthy (Book.isbn updatedBook) = true)
    ∧ (Book.publisher the_awakening ≠ "" → Book.publisher updatedBook ≠ "")
    ∧ (truthy (Book.publishYear the_awakening) = true →
       truthy (Book.publishYear updatedBook) = true)
    ∧ (Book.authorName the_awakening ≠ "" → Book.authorName updatedBook ≠ "")
    ∧ (truthy (Book.authorNationality the_awakening) = true →
       truthy (Book.authorNationality updatedBook) = true).
Proof.
  apply (updateBook_never_clears_a_field books falsy_update 0 the_awakening).
  split_and!; [reflexivity | reflexivity |]. intros j y Hj. lia.
Defined.

(** ** Titles across mutations *)

(** X15: [deleteBook] frees the title.  When the titles of the array are
    pairwise distinct, deleting a record lets a following [addBook] with
    that record's title succeed. *)
Theorem deleteBook_frees_the_title
    (bs : list Book.t) (id : string) (i : nat) (book : Book.t)
    (uuid : string) (args : AddBookArgs.t) :
  NoDup (titles bs) →
  first_with_id id bs i book →
  AddBookArgs.title args = Book.title book →
  ∃ newBook,
    result (addBook uuid args (store (deleteBook id bs))) = Returned newBook
    ∧ Book.title newBook = Book.title book
    ∧ Book.id newBook = uuid.
Proof.
  intros Hnd H Ht. rewrite (deleteBook_first id bs i book H). simpl.
  eexists. rewrite addBook_new.
  - simpl. by split_and!.
  - rewrite titles_delete, Ht. apply NoDup_delete_notin; [done|].
    unfold titles. rewrite list_lookup_fmap.
    destruct H as (-> & _). done.
Qed.

Lemma deleteBook_frees_the_title_witness :
  ∃ newBook,
    result (addBook sample_uuid (sample_args "City of Glass")
              (store (deleteBook (Book.id city_of_glass) books)))
    = Returned newBook
    ∧ Book.title newBook = Book.title city_of_glass
    ∧ Book.id newBook = sample_uuid.
Proof.
  apply (deleteBook_frees_the_title books (Book.id city_of_glass)
           1 city_of_glass sample_uuid (sample_args "City of Glass")).
  - unfold titles, books. simpl. apply NoDup_cons. split.
    + intros [[=]|[]%elem_of_nil]%elem_of_cons.
    + apply NoDup_singleton.
  - split_and!; [reflexivity | reflexivity |].
    intros j y Hj Hy. destruct j as [|j]; [|lia].
    injection Hy as <-. reflexivity.
  - reflexivity.
Defined.

(** X16: [updateBook] takes the title.  After an [updateBook] that sets a
    non-empty title on a record of the array, an [addBook] with that title
    throws the [BAD_USER_INPUT] error and changes nothing. *)
Theorem updateBook_takes_the_title
    (bs : list Book.t) (args : UpdateBookArgs.t) (title : string)
    (uuid : string) (aargs : AddBookArgs.t) :
  (∃ book, book ∈ bs ∧ Book.id book = UpdateBookArgs.id args) →
  UpdateBookArgs.title args = val title →
  title ≠ "" →
  AddBookArgs.title aargs = title →
  addBook uuid aargs (store (updateBook args bs))
  = (Thrown (GraphQLError "Título es una valor único" "BAD_USER_INPUT"),
     store (updateBook args bs)).
Proof.
  intros Hin%elem_of_ids Ht Hne Ha.
  destruct (first_with_id_exists _ bs Hin) as (i & b & H).
  apply addBook_duplicate. rewrite (updateBook_first args bs i b H). simpl.
  apply elem_of_titles. exists (merge b args). split.
  - apply list_elem_of_insert. destruct H as (Hi & _).
    by apply lookup_lt_Some in Hi.
  - simpl. rewrite Ht, Ha. unfold or_prior, truthy, string_truthy.
    apply String.eqb_neq in Hne. by rewrite Hne.
Qed.

Lemma updateBook_takes_the_title_witness :
  addBook sample_uuid (sample_args "Moby-Dick")
    (store (updateBook (only_title (Book.id the_awakening) "Moby-Dick") books))
  = (Thrown (GraphQLError "Título es una valor único" "BAD_USER_INPUT"),
     store (updateBook (only_title (Book.id the_awakening) "Moby-Dick") books)).
Proof.
  apply (updateBook_takes_the_title books
           (only_title (Book.id the_awakening) "Moby-Dick") "Moby-Dick"
           sample_uuid (sample_args "Moby-Dick")).
  - exists the_awakening. split; [apply list_elem_of_here | reflexivity].
  - reflexivity.
  - discriminate.
  - reflexivity.
Defined.

(** ** Length and order across requests *)

(** X17: a request changes [getBooksCount()] by at most one, and by exactly
    this much: plus one for an [addBook] whose title is free, minus one for
    a [deleteBook] whose [id] the array has, and nothing for every other
    request. *)
Theorem count_after_request (r : request) (bs : list Book.t) :
  ∃ n,
    result (getBooksCount bs) = Returned n
    ∧ result (getBooksCount (serve r bs))
      = Returned (n + count_change r bs)%Z
    ∧ (-1 ≤ count_change r bs ≤ 1)%Z.
Proof.
  exists (JsArray.length bs). split; [done|].
  unfold getBooksCount, bind, get, ret, result, JsArray.length. simpl.
  destruct r as [| | id | uuid args | args | id]; simpl.
  - split; [f_equal; lia | lia].
  - split; [f_equal; lia | lia].
  - split; [f_equal; lia | lia].
  - case_bool_decide as Ht.
    + rewrite (addBook_duplicate uuid args bs Ht). simpl.
      split; [f_equal; lia | lia].
    + rewrite (addBook_new uuid args bs Ht). simpl. rewrite length_app. simpl.
      split; [f_equal; lia | lia].
  - destruct (id_cases (UpdateBookArgs.id args) bs) as [(i & b & H) | H].
    + rewrite (updateBook_first args bs i b H). simpl.
      rewrite length_insert. split; [f_equal; lia | lia].
    + rewrite (updateBook_none args bs H). simpl.
      split; [f_equal; lia | lia].
  - case_bool_decide as Hid.
    + destruct (first_with_id_exists id bs Hid) as (i & b & H).
      rewrite (deleteBook_first id bs i b H). simpl.
      destruct H as (Hi%lookup_lt_Some & _).
      rewrite length_delete by (by apply lookup_lt_is_Some).
      split; [f_equal; lia | lia].
    + rewrite (deleteBook_none id bs Hid). simpl.
      split; [f_equal; lia | lia].
Qed.

(** X18: no request reorders the records.  The identifiers of the array
    after a request are a subsequence of the identifiers before it, in the
    same order, followed for an [addBook] by at most the identifier it
    handed out. *)
Theorem no_request_reorders (r : request) (bs : list Book.t) :
  ∃ kept added,
    ids (serve r bs) = kept ++ added
    ∧ kept `sublist_of` ids bs
    ∧ (added = [] ∨ ∃ uuid args, r = AddBook uuid args ∧ added = [uuid]).
Proof.
  destruct r as [| | id | uuid args | args | id]; simpl.
  - exists (ids bs), []. rewrite app_nil_r. split_and!; [done | done | by left].
  - exists (ids bs), []. rewrite app_nil_r. split_and!; [done | done | by left].
  - exists (ids bs), []. rewrite app_nil_r. split_and!; [done | done | by left].
  - destruct (decide (AddBookArgs.title args ∈ titles bs)) as [Ht | Ht].
    + rewrite (addBook_duplicate uuid args bs Ht). simpl.
      exists (ids bs), []. rewrite app_nil_r.
      split_and!; [done | done | by left].
    + rewrite (addBook_new uuid args bs Ht). simpl.
      exists (ids bs), [uuid]. split_and!; [|done|right; eauto].
      unfold ids. by rewrite fmap_app.
  - exists (ids bs), []. rewrite app_nil_r. split_and!; [|done|by left].
    destruct (id_cases (UpdateBookArgs.id args) bs) as [(i & b & H) | H].
    + rewrite (updateBook_first args bs i b H). simpl.
      apply (ids_insert_same bs i b); [apply H | done].
    + by rewrite (updateBook_none args bs H).
  - exists (ids (store (deleteBook id bs))), []. rewrite app_nil_r.
    split_and!; [done | | by left].
    destruct (id_cases id bs) as [(i & b & H) | H].
    + rewrite (deleteBook_first id bs i b H). simpl.
      rewrite ids_delete. apply sublist_delete.
    + by rewrite (deleteBook_none id bs H).
Qed.

(** ** Mutations on different identifiers commute *)

Lemma first_at_insert_other {A} (p : A → bool) (l : list A)
    (i j : nat) (x y z : A) :
  first_at p l i x → l !! j = Some z → p z = false → p y = false →
  first_at p (<[j := y]> l) i x.
Proof.
  intros (Hi & Hx & Hlt) Hj Hz Hy.
  assert (i ≠ j) as Hij.
  { intros ->. rewrite Hi in Hj. injection Hj as ->. by rewrite Hx in Hz. }
  split_and!; [by rewrite list_lookup_insert_ne | done |].
  intros k w Hk Hw. destruct (decide (k = j)) as [-> | Hkj].
  - rewrite list_lookup_insert_eq in Hw by (by apply lookup_lt_Some in Hj).
    by injection Hw as <-.
  - rewrite list_lookup_insert_ne in Hw by done. by apply (Hlt k w).
Qed.

Lemma updateBook_store_other (args args' : UpdateBookArgs.t)
    (bs : list Book.t) (i : nat) (b : Book.t) :
  UpdateBookArgs.id args ≠ UpdateBookArgs.id args' →
  first_with_id (UpdateBookArgs.id args) bs i b →
  first_with_id (UpdateBookArgs.id args) (store (updateBook args' bs)) i b.
Proof.
  intros Hne H.
  destruct (id_cases (UpdateBookArgs.id args') bs) as [(j & x & Hx) | Hx].
  - rewrite (updateBook_first args' bs j x Hx). simpl.
    pose proof (first_with_id_id _ bs j x Hx) as Hid.
    apply (first_at_insert_other _ bs i j b _ x); [done | apply Hx | |].
    + apply strict_eq_false. by rewrite Hid.
    + apply strict_eq_false. simpl. by rewrite Hid.
  - by rewrite (updateBook_none args' bs Hx).
Qed.

Lemma updateBook_store_none (args args' : UpdateBookArgs.t)
    (bs : list Book.t) :
  UpdateBookArgs.id args ∉ ids bs →
  UpdateBookArgs.id args ∉ ids (store (updateBook args' bs)).
Proof.
  intros Hn.
  destruct (id_cases (UpdateBookArgs.id args') bs) as [(j & x & Hx) | Hx].
  - rewrite (updateBook_first args' bs j x Hx). simpl.
    rewrite (ids_insert_same bs j x); [done | apply Hx | done].
  - by rewrite (updateBook_none args' bs Hx).
Qed.

(** X19: two [updateBook] calls on different identifiers commute: in either
    order they leave the same array, and each returns what it returns when it
    runs first. *)
Theorem updateBook_commutes_on_different_ids
    (bs : list Book.t) (args1 args2 : UpdateBookArgs.t) :
  UpdateBookArgs.id args1 ≠ UpdateBookArgs.id args2 →
  store (updateBook args2 (store (updateBook args1 bs)))
  = store (updateBook args1 (store (updateBook args2 bs)))
  ∧ result (updateBook args2 (store (updateBook args1 bs)))
    = result (updateBook args2 bs)
  ∧ result (updateBook args1 (store (updateBook args2 bs)))
    = result (updateBook args1 bs).
Proof.
  intros Hne.
  assert (UpdateBookArgs.id args2 ≠ UpdateBookArgs.id args1) as Hne'
    by congruence.
  destruct (id_cases (UpdateBookArgs.id args1) bs) as [(i1 & b1 & H1) | H1];
    destruct (id_cases (UpdateBookArgs.id args2) bs) as [(i2 & b2 & H2) | H2].
  - pose proof (updateBook_store_other args1 args2 bs i1 b1 Hne H1) as H1'.
    pose proof (updateBook_store_other args2 args1 bs i2 b2 Hne' H2) as H2'.
    rewrite (updateBook_first args1 _ i1 b1 H1').
    rewrite (updateBook_first args2 _ i2 b2 H2').
    rewrite (updateBook_first args1 bs i1 b1 H1).
    rewrite (updateBook_first args2 bs i2 b2 H2). simpl.
    split_and!; [|done|done].
    apply list_insert_insert_ne. intros Heq. subst i2.
    pose proof (first_with_id_id _ bs i1 b1 H1) as E1.
    pose proof (first_with_id_id _ bs i1 b2 H2) as E2.
    destruct H1 as (Hi1 & _), H2 as (Hi2 & _).
    rewrite Hi1 in Hi2. injection Hi2 as ->. congruence.
  - pose proof (updateBook_store_other args1 args2 bs i1 b1 Hne H1) as H1'.
    pose proof (updateBook_store_none args2 args1 bs H2) as H2'.
    rewrite (updateBook_none args2 _ H2').
    rewrite (updateBook_first args1 _ i1 b1 H1').
    rewrite (updateBook_first args1 bs i1 b1 H1).
    rewrite (updateBook_none args2 bs H2). by simpl.
  - pose proof (updateBook_store_none args1 args2 bs H1) as H1'.
    pose proof (updateBook_store_other args2 args1 bs i2 b2 Hne' H2) as H2'.
    rewrite (updateBook_none args1 _ H1').
    rewrite (updateBook_first args2 _ i2 b2 H2').
    rewrite (updateBook_first args2 bs i2 b2 H2).
    rewrite (updateBook_none args1 bs H1). by simpl.
  - pose proof (updateBook_store_none args1 args2 bs H1) as H1'.
    pose proof (updateBook_store_none args2 args1 bs H2) as H2'.
    rewrite (updateBook_none args1 _ H1').
    rewrite (updateBook_none args2 _ H2').
    rewrite (updateBook_none args1 bs H1).
    rewrite (updateBook_none args2 bs H2). by simpl.
Qed.

Lemma updateBook_commutes_on_different_ids_witness :
  store (updateBook (only_title (Book.id city_of_glass) "X")
           (store (updateBook falsy_update books)))
  = store (updateBook falsy_update
             (store (updateBook (only_title (Book.id city_of_glass) "X")
                       books)))
  ∧ result (updateBook (only_title (Book.id city_of_glass) "X")
              (store (updateBook falsy_update books)))
    = result (updateBook (only_title (Book.id city_of_glass) "X") books)
  ∧ result (updateBook falsy_update
              (store (updateBook (only_title (Book.id city_of_glass) "X")
                        books)))
    = result (updateBook falsy_update books).
Proof.
  apply (updateBook_commutes_on_different_ids books falsy_update
           (only_title (Book.id city_of_glass) "X")).
  discriminate.
Defined.

(** The array [deleteBook] leaves, element by element. *)
Lemma deleteBook_store_nil (id : string) : store (deleteBook id []) = [].
Proof. reflexivity. Qed.

Lemma deleteBook_store_cons (id : string) (b : Book.t) (bs : list Book.t) :
  store (deleteBook id (b :: bs))
  = if strict_eq (Book.id b) id then bs else b :: store (deleteBook id bs).
Proof.
  destruct (strict_eq (Book.id b) id) eqn:E.
  - rewrite (deleteBook_first id (b :: bs) 0 b); [done|].
    split_and!; [done | done | intros; lia].
  - destruct (id_cases id bs) as [(i & x & H) | H].
    + rewrite (deleteBook_first id bs i x H).
      rewrite (deleteBook_first id (b :: bs) (S i) x); [done|].
      destruct H as (Hi & Hx & Hlt). split_and!; [done | done |].
      intros [|j] y Hj Hy; [by injection Hy as <- |].
      apply (Hlt j y); [lia | done].
    + rewrite (deleteBook_none id bs H).
      rewrite (deleteBook_none id (b :: bs)); [done|].
      intros (y & [-> | Hy]%elem_of_cons & Heq)%elem_of_ids.
      * apply strict_eq_false in E. done.
      * apply H, elem_of_ids. eauto.
Qed.

(** X20: two [deleteBook] calls on different identifiers commute: in either
    order they leave the same array. *)
Theorem deleteBook_commutes_on_different_ids
    (bs : list Book.t) (id1 id2 : string) :
  id1 ≠ id2 →
  store (deleteBook id2 (store (deleteBook id1 bs)))
  = store (deleteBook id1 (store (deleteBook id2 bs))).
Proof.
  intros Hne. induction bs as [|b bs IH]; [done|].
  rewrite (deleteBook_store_cons id1 b bs), (deleteBook_store_cons id2 b bs).
  destruct (strict_eq (Book.id b) id1) eqn:E1;
    destruct (strict_eq (Book.id b) id2) eqn:E2.
  - apply strict_eq_true in E1, E2. congruence.
  - by rewrite deleteBook_store_cons, E1.
  - by rewrite deleteBook_store_cons, E2.
  - rewrite !deleteBook_store_cons, E1, E2. by rewrite IH.
Qed.

Lemma deleteBook_commutes_on_different_ids_witness :
  store (deleteBook (Book.id city_of_glass)
           (store (deleteBook (Book.id the_awakening) books)))
  = store (deleteBook (Book.id the_awakening)
             (store (deleteBook (Book.id city_of_glass) books))).
Proof.
  apply (deleteBook_commutes_on_different_ids books
           (Book.id the_awakening) (Book.id city_of_glass)).
  discriminate.
Defined.
